(** * ISPU engine of [app.py]: sub-index interpolation, aggregation,
      category mapping and input validation.

    Numbers.  The Python code computes on [float] and [int] values.  They are
    modelled by exact rationals [Q]: comparisons, [+], [-], [*], [/] are the
    rational ones, [round(x, 2)] is rounding to the nearest multiple of 1/100
    with ties to even.  Python's [==] on numbers is [Qeq] (decided by
    [Qeq_bool]).

    Failure.  [KeyError], [IndexError] and [ValueError] are [None] in the
    option monad. *)

From Stdlib Require Import QArith Qround Qabs ZArith List String Ascii Bool Lia Lqa.
From Stdlib Require Import DecimalString.
Import ListNotations.
Open Scope Q_scope.

(** ** A small error monad *)

Definition bind {A B : Type} (m : option A) (f : A -> option B) : option B :=
  match m with
  | Some a => f a
  | None => None
  end.

Notation "x <- m ;; k" := (bind m (fun x => k))
  (at level 61, m at next level, right associativity).

(** ** Python numerics *)

(** Nearest integer, ties to even. *)
Definition round_half_even (x : Q) : Z :=
  let f := Qfloor x in
  let r := x - inject_Z f in
  match Qcompare r (1 # 2) with
  | Lt => f
  | Gt => (f + 1)%Z
  | Eq => if Z.even f then f else (f + 1)%Z
  end.

(** [round(x, 2)] *)
Definition py_round2 (x : Q) : Q := round_half_even (x * 100) # 100.

(** ** Python dictionaries with string keys, in insertion order *)

Definition dict (V : Type) := list (string * V).

Fixpoint dict_get {V : Type} (d : dict V) (k : string) : option V :=
  match d with
  | [] => None
  | (k', v) :: d' => if String.eqb k' k then Some v else dict_get d' k
  end.

(** [d[k] = v]: an existing key keeps its position. *)
Fixpoint dict_set {V : Type} (d : dict V) (k : string) (v : V) : dict V :=
  match d with
  | [] => [(k, v)]
  | (k', v') :: d' =>
      if String.eqb k' k then (k', v) :: d' else (k', v') :: dict_set d' k v
  end.

(** ** The breakpoint table *)

Definition thresholds : dict (list Q) :=
  [ ("pm10"%string,  [0; 50; 150; 350; 420; 500]);
    ("pm2_5"%string, [0; 15.5; 55.4; 150.4; 250.4; 350.4]);
    ("so2"%string,   [0; 52; 180; 400; 800; 1200]);
    ("no2"%string,   [0; 80; 200; 1130; 2260; 3000]);
    ("o3"%string,    [0; 120; 235; 400; 800; 1000]);
    ("co"%string,    [0; 4000; 8000; 15000; 30000; 45000]) ].

(** ** calculate_sub_index *)

(** The body of the [for i in range(5)] loop, over the indices still to visit.
    Falling out of the loop returns 500. *)
Fixpoint band_loop (thresh : list Q) (C : Q) (range : list nat) : option Q :=
  match range with
  | [] => Some 500
  | i :: rest =>
      hi <- nth_error thresh (i + 1) ;;
      if Qle_bool C hi then
        let I_low := inject_Z (Z.of_nat i * 50) in
        let I_high := inject_Z ((Z.of_nat i + 1) * 50) in
        C_low <- nth_error thresh i ;;
        C_high <- nth_error thresh (i + 1) ;;
        if Qeq_bool (C_high - C_low) 0 then Some I_low
        else
          let sub_index := ((I_high - I_low) / (C_high - C_low)) * (C - C_low) + I_low in
          Some (py_round2 sub_index)
      else band_loop thresh C rest
  end.

Definition sub_index_of (thresh : list Q) (C : Q) : option Q :=
  band_loop thresh C (seq 0 5).

Definition calculate_sub_index (C : Q) (pollutant : string) : option Q :=
  thresh <- dict_get thresholds pollutant ;;
  sub_index_of thresh C.

Definition pollutants : list string :=
  [ "PM10"; "PM2.5"; "SO₂"; "NO₂"; "O₃"; "CO" ]%string.

(** ** calculate_ispu_manual *)

Definition Qlt_bool (x y : Q) : bool := negb (Qle_bool y x).

(** [max(l)]: the first of the largest items; [ValueError] on an empty list. *)
Fixpoint max_from (best : Q) (l : list Q) : Q :=
  match l with
  | [] => best
  | item :: rest => max_from (if Qlt_bool best item then item else best) rest
  end.

Definition py_max (l : list Q) : option Q :=
  match l with
  | [] => None
  | first :: rest => Some (max_from first rest)
  end.

(** [l.index(x)]: the first position holding a value equal to [x]. *)
Fixpoint py_index (l : list Q) (x : Q) : option nat :=
  match l with
  | [] => None
  | y :: rest =>
      if Qeq_bool y x then Some O
      else n <- py_index rest x ;; Some (S n)
  end.

Definition calculate_ispu_manual (pm10 pm2_5 so2 no2 o3 co : Q)
  : option (Q * list Q * string) :=
  let co_ug := co * 1000 in
  s_pm10 <- calculate_sub_index pm10 "pm10" ;;
  s_pm2_5 <- calculate_sub_index pm2_5 "pm2_5" ;;
  s_so2 <- calculate_sub_index so2 "so2" ;;
  s_no2 <- calculate_sub_index no2 "no2" ;;
  s_o3 <- calculate_sub_index o3 "o3" ;;
  s_co <- calculate_sub_index co_ug "co" ;;
  let sub_indices := [s_pm10; s_pm2_5; s_so2; s_no2; s_o3; s_co] in
  ispu <- py_max sub_indices ;;
  dominant_idx <- py_index sub_indices ispu ;;
  dominant_pollutant <- nth_error pollutants dominant_idx ;;
  Some (ispu, sub_indices, dominant_pollutant).

(** ** The two classifiers *)

Definition classify_air_quality (ispu_value : Q) : string * string * string :=
  if Qle_bool ispu_value 50 then ("Baik", "#10B981", "😊")%string
  else if Qle_bool ispu_value 100 then ("Sedang", "#F59E0B", "😐")%string
  else if Qle_bool ispu_value 200 then ("Tidak Sehat", "#EF4444", "😷")%string
  else if Qle_bool ispu_value 300 then ("Sangat Tidak Sehat", "#7C3AED", "🤢")%string
  else ("Berbahaya", "#DC2626", "☠️")%string.

Definition classify_based_on_ispu (ispu : Q) : string :=
  if Qle_bool ispu 50 then "Baik 🟢"%string
  else if Qle_bool ispu 100 then "Sedang 🟡"%string
  else if Qle_bool ispu 200 then "Tidak Sehat 🟠"%string
  else if Qle_bool ispu 300 then "Sangat Tidak Sehat 🔴"%string
  else "Berbahaya 🟣"%string.

(** ** validate_inputs *)

(** [str.lower] and [str.upper] on ASCII letters; other bytes are kept. *)
Definition lower_ascii (c : ascii) : ascii :=
  let n := nat_of_ascii c in
  if ((65 <=? n) && (n <=? 90))%nat then ascii_of_nat (n + 32) else c.

Definition upper_ascii (c : ascii) : ascii :=
  let n := nat_of_ascii c in
  if ((97 <=? n) && (n <=? 122))%nat then ascii_of_nat (n - 32) else c.

Fixpoint string_map (f : ascii -> ascii) (s : string) : string :=
  match s with
  | EmptyString => EmptyString
  | String c s' => String (f c) (string_map f s')
  end.

Definition lower : string -> string := string_map lower_ascii.
Definition upper : string -> string := string_map upper_ascii.

(** [{k.lower(): v for k, v in inputs.items()}] *)
Definition lower_keys (inputs : dict Q) : dict Q :=
  fold_left (fun d kv => dict_set d (lower (fst kv)) (snd kv)) inputs [].

(** One turn of the [for name, value in inputs_lower.items()] loop on the
    list [errors]. *)
Definition check_range (errors : list string) (item : string * Q) : list string :=
  let (name, value) := item in
  if Qlt_bool value 0 then
    errors ++ [(upper name ++ " tidak boleh negatif")%string]
  else if Qlt_bool 10000 value then
    errors ++ [(upper name ++ " terlalu tinggi (maksimal 10000)")%string]
  else errors.

Definition co_message : string := "Nilai CO terlalu tinggi (maksimal 100 mg/m³)".

Definition validate_inputs (inputs : dict Q) : list string :=
  let errors := [] in
  let inputs_lower := lower_keys inputs in
  let errors := fold_left check_range inputs_lower errors in
  let co_value := match dict_get inputs_lower "co" with
                  | Some v => v
                  | None => 0
                  end in
  if Qlt_bool 100 co_value then errors ++ [co_message] else errors.

(** ** The validation gate of the prediction page

    What one press of the prediction button does with the eight readings:
    the messages shown by [st.error], the calls made to the engine and the
    values handed to the result display. *)

Record page_run : Type := {
  shown_errors : list string;
  engine_calls : list (Q * Q * Q * Q * Q * Q);
  prediction : option (Q * list Q * string * string)
}.

Definition page_inputs (pm10 pm2_5 so2 no no2 o3 co nh3 : Q) : dict Q :=
  [ ("pm10", pm10); ("pm2_5", pm2_5); ("so2", so2); ("no", no);
    ("no2", no2); ("o3", o3); ("co", co); ("nh3", nh3) ]%string.

Definition run_prediction (pm10 pm2_5 so2 no no2 o3 co nh3 : Q) : page_run :=
  let inputs := page_inputs pm10 pm2_5 so2 no no2 o3 co nh3 in
  let validation_errors := validate_inputs inputs in
  match validation_errors with
  | _ :: _ =>
      (* st.error for each message, then st.stop() *)
      {| shown_errors := map (fun error => ("❌ " ++ error)%string) validation_errors;
         engine_calls := [];
         prediction := None |}
  | [] =>
      {| shown_errors := [];
         engine_calls := [(pm10, pm2_5, so2, no2, o3, co)];
         prediction :=
           r <- calculate_ispu_manual pm10 pm2_5 so2 no2 o3 co ;;
           let '(ispu_pred, sub_indices, dominant_pollutant) := r in
           let air_quality_class := classify_based_on_ispu ispu_pred in
           Some (ispu_pred, sub_indices, dominant_pollutant, air_quality_class) |}
  end.

(** ** The result display of the prediction page *)

(** [create_gauge_chart]: the indicator handed to Plotly. *)
Record gauge_step : Type := {
  step_range : Q * Q;
  step_color : string
}.

Record gauge_chart : Type := {
  gauge_mode : string;
  gauge_value : Q;
  gauge_title : string;
  gauge_domain : (Q * Q) * (Q * Q);
  gauge_axis_range : option Q * Q;
  gauge_bar_color : string;
  gauge_steps : list gauge_step;
  gauge_threshold_line : string * Q;
  gauge_threshold_thickness : Q;
  gauge_threshold_value : Q;
  gauge_height : Q;
  gauge_margin : Q * Q
}.

Definition create_gauge_chart (value : Q) (title : string) : gauge_chart :=
  {| gauge_mode := "gauge+number";
     gauge_value := value;
     gauge_title := title;
     gauge_domain := ((0, 1), (0, 1));
     gauge_axis_range := (None, 500);
     gauge_bar_color := "darkblue";
     gauge_steps :=
       [ {| step_range := (0, 50); step_color := "#10B981" |};
         {| step_range := (50, 100); step_color := "#F59E0B" |};
         {| step_range := (100, 200); step_color := "#EF4444" |};
         {| step_range := (200, 300); step_color := "#7C3AED" |};
         {| step_range := (300, 500); step_color := "#DC2626" |} ];
     gauge_threshold_line := ("red"%string, 4);
     gauge_threshold_thickness := 0.75;
     gauge_threshold_value := value;
     gauge_height := 300;
     gauge_margin := (0, 0) |}.

(** [x / y] on Python numbers: [ZeroDivisionError] when [y == 0]. *)
Definition py_div (x y : Q) : option Q :=
  if Qeq_bool y 0 then None else Some (x / y).

(** [format(x, ".1f")]: sign, integer part, point, one digit; the digit is
    rounded half to even and a negative value keeps its sign when it rounds
    to zero. *)
Definition format_1f (x : Q) : string :=
  let n := round_half_even (Qabs x * 10) in
  let sign := if Qlt_bool x 0 then "-"%string else ""%string in
  (sign ++ NilZero.string_of_uint (N.to_uint (Z.to_N (n / 10))) ++ "."
        ++ NilZero.string_of_uint (N.to_uint (Z.to_N (n mod 10))))%string.

(** [[f"{idx/ispu_pred*100:.1f}%" for idx in sub_indices]] *)
Fixpoint contribution_column (sub_indices : list Q) (ispu_pred : Q)
  : option (list string) :=
  match sub_indices with
  | [] => Some []
  | idx :: rest =>
      q <- py_div idx ispu_pred ;;
      let cell := (format_1f (q * 100) ++ "%")%string in
      cells <- contribution_column rest ispu_pred ;;
      Some (cell :: cells)
  end.

(** The rows (Polutan, Sub-Index, Kontribusi) of the detail table [sub_df];
    [pd.DataFrame] refuses columns of different lengths. *)
Definition detail_table (sub_indices : list Q) (ispu_pred : Q)
  : option (list (string * Q * string)) :=
  let pollutants := [ "PM10"; "PM2.5"; "SO₂"; "NO₂"; "O₃"; "CO" ]%string in
  kontribusi <- contribution_column sub_indices ispu_pred ;;
  if (List.length sub_indices =? List.length pollutants)%nat
  then Some (combine (combine pollutants sub_indices) kontribusi)
  else None.

(** The Streamlit call that shows a recommendation. *)
Inductive alert : Type := st_success | st_warning | st_error.

Definition recommendation_baik : string :=
  "
                ✅ **Kondisi udara BAIK**
                - Aktivitas luar ruangan aman untuk semua orang
                - Tidak ada pembatasan aktivitas
                - Kondisi ideal untuk berolahraga di luar
                ".

Definition recommendation_sedang : string :=
  "
                ⚠️ **Kondisi udara SEDANG**  
                - Kelompok sensitif (anak-anak, lansia, penderita ISPA) sebaiknya mengurangi aktivitas luar ruangan
                - Orang sehat dapat beraktivitas seperti biasa
                - Gunakan masker jika merasa tidak nyaman
                ".

Definition recommendation_tidak_sehat : string :=
  "
                ❌ **Kondisi udara TIDAK SEHAT**
                - **Semua orang:** Gunakan masker jika keluar rumah
                - Kurangi aktivitas fisik berat di luar ruangan
                - Tutup jendela untuk mengurangi paparan polutan
                - Kelompok sensitif tetap di dalam ruangan
                ".

Definition recommendation_sangat_tidak_sehat : string :=
  "
                🚫 **Kondisi udara SANGAT TIDAK SEHAT**
                - **Hindari aktivitas luar ruangan**
                - Gunakan air purifier di dalam ruangan
                - Tutup semua ventilasi udara
                - Segera cari pertolongan medis jika mengalami sesak napas, batuk, atau iritasi mata
                ".

Definition recommendation_berbahaya : string :=
  "
                ☠️ **Kondisi udara BERBAHAYA**
                - **Tetap di dalam ruangan** dengan penyejuk udara
                - Gunakan masker N95 jika harus keluar
                - Evakuasi ke area dengan udara bersih jika memungkinkan
                - Status darurat: hindari semua aktivitas luar ruangan
                ".

(** The health recommendation shown for the predicted index. *)
Definition health_recommendation (ispu_pred : Q) : alert * string :=
  if Qle_bool ispu_pred 50 then (st_success, recommendation_baik)
  else if Qle_bool ispu_pred 100 then (st_warning, recommendation_sedang)
  else if Qle_bool ispu_pred 200 then (st_error, recommendation_tidak_sehat)
  else if Qle_bool ispu_pred 300 then (st_error, recommendation_sangat_tidak_sehat)
  else (st_error, recommendation_berbahaya).

(** ** The band scan, in the words of the specification, and the notions
       used to state the properties *)

(** The first band [i] in 0..4 with [C <= thresh[i+1]]. *)
Definition first_band (thresh : list Q) (C : Q) : option nat :=
  find (fun i => Qle_bool C (nth (i + 1) thresh 0)) (seq 0 5).

(** [round(I_low + (I_high - I_low) / (C_high - C_low) * (C - C_low), 2)],
    and [I_low] when [C_high == C_low]. *)
Definition interpolate (thresh : list Q) (i : nat) (C : Q) : Q :=
  let I_low := inject_Z (Z.of_nat i * 50) in
  let I_high := inject_Z ((Z.of_nat i + 1) * 50) in
  let C_low := nth i thresh 0 in
  let C_high := nth (i + 1) thresh 0 in
  if Qeq_bool C_high C_low then I_low
  else py_round2 (I_low + (I_high - I_low) / (C_high - C_low) * (C - C_low)).

Definition spec_sub_index (thresh : list Q) (C : Q) : Q :=
  match first_band thresh C with
  | Some i => interpolate thresh i C
  | None => 500
  end.

(** Strictly increasing breakpoints. *)
Definition increasing (thresh : list Q) : Prop :=
  forall i j : nat, (i < j < List.length thresh)%nat -> nth i thresh 0 < nth j thresh 0.

(** The table of a pollutant key ([[]] for a key that is not in the table). *)
Definition table (p : string) : list Q :=
  match dict_get thresholds p with
  | Some thresh => thresh
  | None => []
  end.

(** [r1] and [r2] are results and the overall index of [r1] is at most that
    of [r2]. *)
Definition index_le (r1 r2 : option (Q * list Q * string)) : Prop :=
  exists (v1 v2 : Q) (s1 s2 : list Q) (d1 d2 : string),
    r1 = Some (v1, s1, d1) /\ r2 = Some (v2, s2, d2) /\ v1 <= v2.

(** A reading outside [0, 10000]. *)
Definition out_of_range (value : Q) : bool :=
  Qlt_bool value 0 || Qlt_bool 10000 value.

(** The message, if any, that the range loop appends for one item. *)
Definition range_message (item : string * Q) : list string :=
  check_range [] item.

(** The case-normalised item. *)
Definition lower_item (kv : string * Q) : string * Q := (lower (fst kv), snd kv).

(** Keys that stay distinct when letter case is ignored. *)
Definition distinct_keys (inputs : dict Q) : Prop :=
  NoDup (map (fun kv => lower (fst kv)) inputs).

(** The CO reading that the last check of [validate_inputs] looks at. *)
Definition co_reading (inputs : dict Q) : Q :=
  match dict_get (lower_keys inputs) "co" with
  | Some v => v
  | None => 0
  end.

(** A field that breaks a rule: outside [0, 10000], or CO above 100. *)
Definition offending (kv : string * Q) : bool :=
  out_of_range (snd kv) || (String.eqb (lower (fst kv)) "co" && Qlt_bool 100 (snd kv)).

(** * Properties *)

(** ** Rounding *)

Lemma round_half_even_cases (x : Q) :
  round_half_even x = Qfloor x \/ round_half_even x = (Qfloor x + 1)%Z.
Proof.
  unfold round_half_even.
  destruct (Qcompare _ _); [destruct (Z.even _)| |]; auto.
Qed.

Lemma round_half_even_compat (x y : Q) :
  x == y -> round_half_even x = round_half_even y.
Proof.
  intros E. unfold round_half_even.
  rewrite (Qfloor_comp _ _ E).
  assert (R : x - inject_Z (Qfloor y) == y - inject_Z (Qfloor y)) by (rewrite E; reflexivity).
  rewrite R. reflexivity.
Qed.

Lemma round_half_even_Z (n : Z) : round_half_even (inject_Z n) = n.
Proof.
  unfold round_half_even. rewrite Qfloor_Z.
  generalize (inject_Z n). intros q.
  destruct (Qcompare_spec (q - q) (1 # 2)) as [E|L|G];
    try reflexivity; lra.
Qed.

Lemma round_half_even_mono (x y : Q) :
  x <= y -> (round_half_even x <= round_half_even y)%Z.
Proof.
  intros L.
  pose proof (Qfloor_resp_le _ _ L) as F.
  assert (C : Qfloor x = Qfloor y \/ (Qfloor x + 1 <= Qfloor y)%Z) by lia.
  destruct C as [C | C].
  - unfold round_half_even. rewrite C.
    generalize (inject_Z (Qfloor y)). intros q.
    destruct (Qcompare_spec (x - q) (1 # 2));
      destruct (Qcompare_spec (y - q) (1 # 2));
      destruct (Z.even (Qfloor y)); try lia; lra.
  - destruct (round_half_even_cases x) as [-> | ->].
    + destruct (round_half_even_cases y) as [-> | ->]; lia.
    + destruct (round_half_even_cases y) as [-> | ->]; lia.
Qed.

Lemma py_round2_compat (x y : Q) : x == y -> py_round2 x = py_round2 y.
Proof.
  intros E. unfold py_round2. f_equal.
  apply round_half_even_compat. rewrite E. reflexivity.
Qed.

Lemma py_round2_mono (x y : Q) : x <= y -> py_round2 x <= py_round2 y.
Proof.
  intros L. unfold py_round2, Qle. simpl.
  apply Z.mul_le_mono_nonneg_r; [lia|].
  apply round_half_even_mono. lra.
Qed.

Lemma py_round2_Z (n : Z) : py_round2 (inject_Z n) == inject_Z n.
Proof.
  unfold py_round2.
  rewrite (round_half_even_compat _ (inject_Z (n * 100))).
  - rewrite round_half_even_Z. unfold Qeq, inject_Z. simpl. lia.
  - rewrite inject_Z_mult. reflexivity.
Qed.

Lemma py_round2_between (a b : Z) (x : Q) :
  inject_Z a <= x -> x <= inject_Z b ->
  inject_Z a <= py_round2 x /\ py_round2 x <= inject_Z b.
Proof.
  intros A B. split.
  - rewrite <- (py_round2_Z a). now apply py_round2_mono.
  - rewrite <- (py_round2_Z b). now apply py_round2_mono.
Qed.

(** ** The band scan *)

Lemma find_seq_first (f : nat -> bool) (n a i : nat) :
  find f (seq a n) = Some i ->
  (a <= i < a + n)%nat /\ f i = true /\ forall j, (a <= j < i)%nat -> f j = false.
Proof.
  revert a. induction n as [|n IH]; intros a; simpl; [discriminate|].
  destruct (f a) eqn:Fa.
  - intros [= <-]. split; [lia|]. split; [assumption|]. intros j Hj. lia.
  - intros H. destruct (IH _ H) as (R & T & N).
    split; [lia|]. split; [assumption|].
    intros j Hj. destruct (Nat.eq_dec j a) as [-> | D]; auto. apply N. lia.
Qed.

Lemma find_seq_none (f : nat -> bool) (n a : nat) :
  find f (seq a n) = None -> forall j, (a <= j < a + n)%nat -> f j = false.
Proof.
  intros H j Hj. apply (find_none _ _ H). apply in_seq. lia.
Qed.

Lemma Qeq_bool_sub_0 (x y : Q) : Qeq_bool (x - y) 0 = Qeq_bool x y.
Proof.
  destruct (Qeq_bool x y) eqn:E.
  - apply Qeq_bool_iff in E. apply Qeq_bool_iff. lra.
  - apply Qeq_bool_neq in E.
    destruct (Qeq_bool (x - y) 0) eqn:E'; auto.
    apply Qeq_bool_iff in E'. exfalso. apply E. lra.
Qed.

Lemma nth_error_nth_Q (l : list Q) (n : nat) :
  (n < List.length l)%nat -> nth_error l n = Some (nth n l 0).
Proof. intros H. now apply nth_error_nth'. Qed.

(** The loop of the code visits the bands of [range] exactly as [find] does. *)
Lemma band_loop_find (thresh : list Q) (C : Q) (range : list nat) :
  List.length thresh = 6%nat ->
  Forall (fun i => (i < 5)%nat) range ->
  band_loop thresh C range =
  Some match find (fun i => Qle_bool C (nth (i + 1) thresh 0)) range with
       | Some i => interpolate thresh i C
       | None => 500
       end.
Proof.
  intros Len. induction 1 as [|i rest Hi _ IH]; simpl; [reflexivity|].
  rewrite (nth_error_nth_Q thresh (i + 1)) by lia. simpl.
  destruct (Qle_bool C (nth (i + 1) thresh 0)); [|exact IH].
  rewrite (nth_error_nth_Q thresh i) by lia. simpl.
  unfold interpolate. rewrite Qeq_bool_sub_0.
  destruct (Qeq_bool _ _); [reflexivity|].
  f_equal. apply py_round2_compat. ring.
Qed.

Lemma sub_index_of_spec (thresh : list Q) (C : Q) :
  List.length thresh = 6%nat -> sub_index_of thresh C = Some (spec_sub_index thresh C).
Proof.
  intros Len. unfold sub_index_of, spec_sub_index, first_band.
  apply band_loop_find; auto.
  apply Forall_forall. intros i Hi. apply in_seq in Hi. lia.
Qed.

(** The degenerate branch, on a table with a repeated first breakpoint. *)
Example sub_index_of_degenerate :
  sub_index_of [10; 10; 20; 30; 40; 50] 5 = Some 0 /\
  spec_sub_index [10; 10; 20; 30; 40; 50] 5 = 0.
Proof. split; reflexivity. Qed.

(** What [first_band] tells about the position of [C]. *)
Lemma first_band_some (thresh : list Q) (C : Q) (i : nat) :
  first_band thresh C = Some i ->
  (i < 5)%nat /\ C <= nth (i + 1) thresh 0 /\
  forall j, (j < i)%nat -> nth (j + 1) thresh 0 < C.
Proof.
  intros H. apply find_seq_first in H. destruct H as (R & T & N).
  split; [lia|]. split; [now apply Qle_bool_iff|].
  intros j Hj. apply Qnot_le_lt. intros L.
  apply Qle_bool_iff in L. rewrite N in L by lia. discriminate.
Qed.

Lemma first_band_none (thresh : list Q) (C : Q) :
  first_band thresh C = None ->
  forall j, (j < 5)%nat -> nth (j + 1) thresh 0 < C.
Proof.
  intros H j Hj. apply Qnot_le_lt. intros L.
  apply Qle_bool_iff in L.
  rewrite (find_seq_none _ _ _ H j) in L by lia. discriminate.
Qed.

Lemma first_band_below_top (thresh : list Q) (C : Q) :
  C <= nth 5 thresh 0 -> exists i, first_band thresh C = Some i.
Proof.
  intros L. destruct (first_band thresh C) as [i|] eqn:E; [now exists i|].
  pose proof (first_band_none _ _ E 4%nat ltac:(lia)) as N. simpl in N. lra.
Qed.

(** ** Interpolation inside one band *)

Lemma slope_pos (d : Q) : 0 < d -> 0 < 50 / d.
Proof.
  intros D. unfold Qdiv.
  pose proof (Qinv_lt_0_compat d D) as K.
  setoid_replace 0 with (50 * 0) by ring.
  apply Qmult_lt_l; [reflexivity | exact K].
Qed.

Lemma slope_mono (d x y : Q) : 0 < d -> x <= y -> 50 / d * x <= 50 / d * y.
Proof.
  intros D L. apply Qmult_le_l; [now apply slope_pos | exact L].
Qed.

Lemma slope_range (d x : Q) :
  0 < d -> 0 <= x -> x <= d -> 0 <= 50 / d * x /\ 50 / d * x <= 50.
Proof.
  intros D X0 Xd. split.
  - setoid_replace 0 with (50 / d * 0) by ring. now apply slope_mono.
  - setoid_replace 50 with (50 / d * d) at 2 by (field; lra).
    now apply slope_mono.
Qed.

Lemma band_width (i : nat) :
  inject_Z ((Z.of_nat i + 1) * 50) - inject_Z (Z.of_nat i * 50) == 50.
Proof.
  rewrite Z.mul_add_distr_r, inject_Z_plus. simpl (inject_Z (1 * 50)). ring.
Qed.

Lemma index_low_nonneg (i : nat) : 0 <= inject_Z (Z.of_nat i * 50).
Proof. unfold Qle. simpl. lia. Qed.

Lemma index_high_le (i : nat) :
  (i < 5)%nat -> inject_Z ((Z.of_nat i + 1) * 50) <= 250.
Proof. intros H. unfold Qle. simpl. lia. Qed.

Lemma index_step_le (i j : nat) :
  (i < j)%nat -> inject_Z ((Z.of_nat i + 1) * 50) <= inject_Z (Z.of_nat j * 50).
Proof. intros H. rewrite <- Zle_Qle. lia. Qed.

Lemma interpolate_unfold (thresh : list Q) (i : nat) (C : Q) :
  nth i thresh 0 < nth (i + 1) thresh 0 ->
  interpolate thresh i C =
  py_round2 (inject_Z (Z.of_nat i * 50)
             + 50 / (nth (i + 1) thresh 0 - nth i thresh 0) * (C - nth i thresh 0)).
Proof.
  intros L. unfold interpolate.
  destruct (Qeq_bool _ _) eqn:E.
  - apply Qeq_bool_iff in E. lra.
  - apply py_round2_compat. rewrite band_width. reflexivity.
Qed.

Lemma interpolate_range (thresh : list Q) (i : nat) (C : Q) :
  nth i thresh 0 < nth (i + 1) thresh 0 ->
  nth i thresh 0 <= C -> C <= nth (i + 1) thresh 0 ->
  inject_Z (Z.of_nat i * 50) <= interpolate thresh i C /\
  interpolate thresh i C <= inject_Z ((Z.of_nat i + 1) * 50).
Proof.
  intros L Lo Hi. rewrite interpolate_unfold by assumption.
  pose proof (band_width i) as W.
  destruct (slope_range (nth (i + 1) thresh 0 - nth i thresh 0) (C - nth i thresh 0))
    as [S0 S50]; try lra.
  apply py_round2_between; lra.
Qed.

Lemma interpolate_mono (thresh : list Q) (i : nat) (C1 C2 : Q) :
  nth i thresh 0 < nth (i + 1) thresh 0 ->
  C1 <= C2 -> interpolate thresh i C1 <= interpolate thresh i C2.
Proof.
  intros L LC. rewrite !interpolate_unfold by assumption.
  apply py_round2_mono.
  pose proof (slope_mono (nth (i + 1) thresh 0 - nth i thresh 0)
                (C1 - nth i thresh 0) (C2 - nth i thresh 0)) as M.
  lra.
Qed.

(** ** The scan over a well-formed table *)

Section WellFormedTable.

Variable thresh : list Q.
Hypothesis thresh_len : List.length thresh = 6%nat.
Hypothesis thresh_inc : increasing thresh.
Hypothesis thresh_0 : nth 0 thresh 0 == 0.

Lemma band_step (i : nat) : (i < 5)%nat -> nth i thresh 0 < nth (i + 1) thresh 0.
Proof. intros H. apply thresh_inc. lia. Qed.

(** The selected band contains the concentration. *)
Lemma first_band_low (C : Q) (i : nat) :
  0 <= C -> first_band thresh C = Some i -> nth i thresh 0 <= C.
Proof.
  intros C0 H. apply first_band_some in H. destruct H as (_ & _ & N).
  destruct i as [|j]; [lra|].
  specialize (N j ltac:(lia)). replace (j + 1)%nat with (S j) in N by lia. lra.
Qed.

Lemma spec_sub_index_range (C : Q) :
  0 <= C ->
  (0 <= spec_sub_index thresh C /\ spec_sub_index thresh C <= 250) \/
  spec_sub_index thresh C = 500.
Proof.
  intros C0. unfold spec_sub_index.
  destruct (first_band thresh C) as [i|] eqn:E; [left | now right].
  pose proof (first_band_low C i C0 E) as Lo.
  apply first_band_some in E. destruct E as (I5 & Hi & _).
  destruct (interpolate_range thresh i C (band_step i I5) Lo Hi) as [A B].
  pose proof (index_low_nonneg i). pose proof (index_high_le i I5).
  lra.
Qed.

Lemma spec_sub_index_mono (C1 C2 : Q) :
  0 <= C1 -> C1 <= C2 -> spec_sub_index thresh C1 <= spec_sub_index thresh C2.
Proof.
  intros C0 L. unfold spec_sub_index.
  destruct (first_band thresh C1) as [i|] eqn:E1;
    destruct (first_band thresh C2) as [j|] eqn:E2.
  2:{ (* C2 is past the top breakpoint *)
    pose proof (first_band_low C1 i C0 E1) as Lo.
    apply first_band_some in E1. destruct E1 as (I5 & Hi & _).
    destruct (interpolate_range thresh i C1 (band_step i I5) Lo Hi) as [_ B].
    pose proof (index_high_le i I5). lra. }
  2:{ (* C1 past the top breakpoint and C2 not: impossible *)
    apply first_band_some in E2. destruct E2 as (J5 & Hj & _).
    pose proof (first_band_none _ _ E1 j J5). lra. }
  2:{ lra. }
  pose proof (first_band_low C1 i C0 E1) as Lo1.
  pose proof (first_band_low C2 j ltac:(lra) E2) as Lo2.
  apply first_band_some in E1. destruct E1 as (I5 & Hi & Ni).
  apply first_band_some in E2. destruct E2 as (J5 & Hj & Nj).
  assert (IJ : (i <= j)%nat).
  { destruct (le_lt_dec i j) as [|G]; auto.
    specialize (Ni j G). lra. }
  destruct (Nat.eq_dec i j) as [-> | D].
  - apply interpolate_mono; auto using band_step.
  - destruct (interpolate_range thresh i C1 (band_step i I5) Lo1 Hi) as [_ B].
    destruct (interpolate_range thresh j C2 (band_step j J5) Lo2 Hj) as [A _].
    pose proof (index_step_le i j ltac:(lia)).
    lra.
Qed.

End WellFormedTable.

(** ** The six tables *)

Lemma dict_get_In {V : Type} (d : dict V) (k : string) (v : V) :
  dict_get d k = Some v -> In (k, v) d.
Proof.
  induction d as [|[k' v'] d IH]; simpl; [discriminate|].
  destruct (String.eqb k' k) eqn:E.
  - apply String.eqb_eq in E. intros [= ->]. left. now subst.
  - intros H. right. auto.
Qed.

Ltac increasing_table :=
  let i := fresh "i" in
  let j := fresh "j" in
  let H := fresh "H" in
  intros i j H; simpl in H;
  do 6 (destruct i as [|i];
        [ do 6 (destruct j as [|j]; [ first [ lia | reflexivity ] | ]); lia | ]);
  lia.

Lemma thresholds_wf :
  Forall (fun kv : string * list Q =>
            List.length (snd kv) = 6%nat /\ increasing (snd kv) /\ nth 0 (snd kv) 0 = 0)
         thresholds.
Proof.
  unfold thresholds.
  repeat (apply Forall_cons;
          [ simpl; split; [reflexivity | split; [increasing_table | reflexivity]] | ]).
  apply Forall_nil.
Qed.

Lemma table_wf (p : string) (thresh : list Q) :
  dict_get thresholds p = Some thresh ->
  List.length thresh = 6%nat /\ increasing thresh /\ nth 0 thresh 0 == 0.
Proof.
  intros H. apply dict_get_In in H.
  pose proof thresholds_wf as W. rewrite Forall_forall in W.
  destruct (W _ H) as (L & I & Z). simpl in L, I, Z.
  split; [exact L|]. split; [exact I|]. rewrite Z. reflexivity.
Qed.

Lemma calculate_sub_index_spec (p : string) (thresh : list Q) (C : Q) :
  dict_get thresholds p = Some thresh ->
  calculate_sub_index C p = Some (spec_sub_index thresh C).
Proof.
  intros H. unfold calculate_sub_index. rewrite H. simpl.
  apply sub_index_of_spec. now apply table_wf in H.
Qed.

(** ** Claims on the sub-index *)

(** C5. The breakpoint table maps each of the six pollutants to its six
    calibration values, it has no other key, and every sequence is strictly
    increasing. *)
Theorem thresholds_calibration :
  dict_get thresholds "pm10" = Some [0; 50; 150; 350; 420; 500] /\
  dict_get thresholds "pm2_5" = Some [0; 15.5; 55.4; 150.4; 250.4; 350.4] /\
  dict_get thresholds "so2" = Some [0; 52; 180; 400; 800; 1200] /\
  dict_get thresholds "no2" = Some [0; 80; 200; 1130; 2260; 3000] /\
  dict_get thresholds "o3" = Some [0; 120; 235; 400; 800; 1000] /\
  dict_get thresholds "co" = Some [0; 4000; 8000; 15000; 30000; 45000] /\
  map fst thresholds = ["pm10"; "pm2_5"; "so2"; "no2"; "o3"; "co"]%string /\
  Forall (fun kv : string * list Q =>
            List.length (snd kv) = 6%nat /\ increasing (snd kv)) thresholds.
Proof.
  repeat (split; [reflexivity|]).
  eapply Forall_impl; [|exact thresholds_wf].
  intros kv (L & I & _). now split.
Qed.

(** C1. For each of the six pollutants and every concentration
    [0 <= C <= thresh[5]], the sub-index is the interpolation (rounded to two
    decimals, [I_low] in the degenerate case) in the first band [i] of 0..4
    with [C <= thresh[i+1]]. *)
Theorem sub_index_first_band (p : string) (thresh : list Q) (C : Q) :
  dict_get thresholds p = Some thresh ->
  0 <= C -> C <= nth 5 thresh 0 ->
  exists i : nat,
    (i < 5)%nat /\
    C <= nth (i + 1) thresh 0 /\
    (forall j, (j < i)%nat -> ~ C <= nth (j + 1) thresh 0) /\
    calculate_sub_index C p =
    Some (let I_low := inject_Z (Z.of_nat i * 50) in
          let I_high := inject_Z ((Z.of_nat i + 1) * 50) in
          let C_low := nth i thresh 0 in
          let C_high := nth (i + 1) thresh 0 in
          if Qeq_bool C_high C_low then I_low
          else py_round2 (I_low + (I_high - I_low) / (C_high - C_low) * (C - C_low))).
Proof.
  intros T C0 Ctop.
  destruct (first_band_below_top thresh C Ctop) as [i E].
  exists i. rewrite (calculate_sub_index_spec p thresh C T).
  unfold spec_sub_index. rewrite E.
  apply first_band_some in E. destruct E as (I5 & Hi & N).
  repeat split; auto.
  intros j Hj L. specialize (N j Hj). lra.
Qed.

Lemma sub_index_first_band_witness :
  exists i : nat,
    (i < 5)%nat /\
    35 <= nth (i + 1) [0; 15.5; 55.4; 150.4; 250.4; 350.4] 0 /\
    (forall j, (j < i)%nat -> ~ 35 <= nth (j + 1) [0; 15.5; 55.4; 150.4; 250.4; 350.4] 0) /\
    calculate_sub_index 35 "pm2_5" =
    Some (let I_low := inject_Z (Z.of_nat i * 50) in
          let I_high := inject_Z ((Z.of_nat i + 1) * 50) in
          let C_low := nth i [0; 15.5; 55.4; 150.4; 250.4; 350.4] 0 in
          let C_high := nth (i + 1) [0; 15.5; 55.4; 150.4; 250.4; 350.4] 0 in
          if Qeq_bool C_high C_low then I_low
          else py_round2 (I_low + (I_high - I_low) / (C_high - C_low) * (35 - C_low))).
Proof.
  apply (sub_index_first_band "pm2_5" [0; 15.5; 55.4; 150.4; 250.4; 350.4] 35).
  - reflexivity.
  - unfold Qle; simpl; lia.
  - unfold Qle; simpl; lia.
Defined.

(** The sub-index at the top breakpoint itself is the upper edge of band 4. *)
Lemma saturation_fails_at_top_breakpoint :
  dict_get thresholds "pm10" = Some [0; 50; 150; 350; 420; 500] /\
  nth 5 [0; 50; 150; 350; 420; 500] 0 <= 500 /\
  calculate_sub_index 500 "pm10" = Some 250.00 /\
  ~ (forall (p : string) (thresh : list Q) (C : Q),
        dict_get thresholds p = Some thresh ->
        nth 5 thresh 0 <= C ->
        exists v, calculate_sub_index C p = Some v /\ v == 500).
Proof.
  split; [reflexivity|]. split; [unfold Qle; simpl; lia|]. split; [reflexivity|].
  intros H.
  destruct (H "pm10"%string [0; 50; 150; 350; 420; 500] 500 eq_refl) as (v & E & V).
  - unfold Qle; simpl; lia.
  - change (calculate_sub_index 500 "pm10") with (Some 250.00) in E.
    injection E as <-. discriminate V.
Qed.

(** C2, amended. For each of the six pollutants, a concentration strictly
    above the top breakpoint [thresh[5]] has sub-index exactly 500; at the top
    breakpoint itself the sub-index is 250. *)
Theorem sub_index_saturation (p : string) (thresh : list Q) (C : Q) :
  dict_get thresholds p = Some thresh ->
  (nth 5 thresh 0 < C -> calculate_sub_index C p = Some 500) /\
  (C == nth 5 thresh 0 ->
   exists v, calculate_sub_index C p = Some v /\ v == 250).
Proof.
  intros T. rewrite (calculate_sub_index_spec p thresh C T).
  destruct (table_wf p thresh T) as (Len & Inc & Z0).
  unfold spec_sub_index. split.
  - intros Top. destruct (first_band thresh C) as [i|] eqn:E; [|reflexivity].
    apply first_band_some in E. destruct E as (I5 & Hi & _).
    assert (I : i = 4%nat \/ (i + 1 < 5)%nat) by lia.
    destruct I as [-> | I]; [simpl in Hi; lra|].
    pose proof (Inc (i + 1)%nat 5%nat ltac:(lia)). lra.
  - intros Top. eexists. split; [reflexivity|].
    assert (E : first_band thresh C = Some 4%nat).
    { destruct (first_band_below_top thresh C ltac:(lra)) as [i E].
      rewrite E. f_equal.
      apply first_band_some in E. destruct E as (I5 & Hi & _).
      assert (I : i = 4%nat \/ (i + 1 < 5)%nat) by lia.
      destruct I as [-> | I]; [reflexivity|].
      pose proof (Inc (i + 1)%nat 5%nat ltac:(lia)). lra. }
    rewrite E.
    pose proof (Inc 4%nat 5%nat ltac:(lia)) as Step.
    rewrite (interpolate_unfold thresh 4 C Step).
    transitivity (py_round2 (inject_Z 250)); [|apply py_round2_Z].
    rewrite (py_round2_compat _ (inject_Z 250)); [reflexivity|].
    change (4 + 1)%nat with 5%nat. change (inject_Z 250) with 250.
    change (inject_Z (Z.of_nat 4 * 50)) with 200.
    rewrite Top. field. lra.
Qed.

Lemma sub_index_saturation_witness :
  calculate_sub_index 500.01 "pm10" = Some 500 /\
  exists v, calculate_sub_index 500 "pm10" = Some v /\ v == 250.
Proof.
  split.
  - apply (sub_index_saturation "pm10" [0; 50; 150; 350; 420; 500] 500.01 eq_refl).
    reflexivity.
  - apply (sub_index_saturation "pm10" [0; 50; 150; 350; 420; 500] 500 eq_refl).
    reflexivity.
Defined.

(** C9. For each of the six pollutants and every concentration [C >= 0], the
    sub-index lies in [0, 250] or is exactly 500. *)
Theorem sub_index_range (p : string) (thresh : list Q) (C : Q) :
  dict_get thresholds p = Some thresh ->
  0 <= C ->
  exists v, calculate_sub_index C p = Some v /\
            ((0 <= v /\ v <= 250) \/ v = 500).
Proof.
  intros T C0. rewrite (calculate_sub_index_spec p thresh C T).
  destruct (table_wf p thresh T) as (Len & Inc & Z0).
  eexists. split; [reflexivity|].
  now apply spec_sub_index_range.
Qed.

Lemma sub_index_range_witness :
  exists v, calculate_sub_index 35 "pm2_5" = Some v /\
            ((0 <= v /\ v <= 250) \/ v = 500).
Proof.
  apply (sub_index_range "pm2_5" [0; 15.5; 55.4; 150.4; 250.4; 350.4] 35).
  - reflexivity.
  - unfold Qle; simpl; lia.
Defined.

(** ** Aggregation *)

Lemma Qlt_bool_iff (x y : Q) : Qlt_bool x y = true <-> x < y.
Proof.
  unfold Qlt_bool. rewrite negb_true_iff. split.
  - intros H. apply Qnot_le_lt. intros L. apply Qle_bool_iff in L. congruence.
  - intros H. destruct (Qle_bool y x) eqn:E; auto.
    apply Qle_bool_iff in E. lra.
Qed.

Lemma Qlt_bool_false (x y : Q) : Qlt_bool x y = false <-> y <= x.
Proof.
  unfold Qlt_bool. rewrite negb_false_iff. apply Qle_bool_iff.
Qed.

Lemma max_from_In (l : list Q) (best : Q) : In (max_from best l) (best :: l).
Proof.
  revert best. induction l as [|item rest IH]; intros best; simpl; [now left|].
  destruct (IH (if Qlt_bool best item then item else best)) as [E | I].
  - destruct (Qlt_bool best item); rewrite <- E; auto.
  - right. right. exact I.
Qed.

Lemma max_from_ge_best (l : list Q) (best : Q) : best <= max_from best l.
Proof.
  revert best. induction l as [|item rest IH]; intros best; simpl; [lra|].
  specialize (IH (if Qlt_bool best item then item else best)).
  destruct (Qlt_bool best item) eqn:E; [apply Qlt_bool_iff in E; lra | exact IH].
Qed.

Lemma max_from_upper (l : list Q) (best x : Q) :
  In x (best :: l) -> x <= max_from best l.
Proof.
  revert best. induction l as [|item rest IH]; intros best I.
  - destruct I as [-> | []]. simpl. lra.
  - destruct I as [-> | I]; [apply max_from_ge_best|].
    simpl. destruct I as [-> | I].
    + pose proof (max_from_ge_best rest (if Qlt_bool best x then x else best)) as G.
      destruct (Qlt_bool best x) eqn:E; [exact G|].
      apply Qlt_bool_false in E. lra.
    + apply IH. now right.
Qed.

Lemma py_max_spec (l : list Q) (m : Q) :
  py_max l = Some m -> In m l /\ Forall (fun x => x <= m) l.
Proof.
  destruct l as [|first rest]; simpl; [discriminate|].
  intros [= <-]. split; [apply max_from_In|].
  apply Forall_forall. intros x I. now apply max_from_upper.
Qed.

Lemma py_index_spec (l : list Q) (x : Q) (n : nat) :
  py_index l x = Some n ->
  (n < List.length l)%nat /\ nth n l 0 == x /\
  forall j, (j < n)%nat -> ~ nth j l 0 == x.
Proof.
  revert n. induction l as [|y rest IH]; intros n; simpl; [discriminate|].
  destruct (Qeq_bool y x) eqn:E.
  - intros [= <-]. split; [lia|]. split; [now apply Qeq_bool_iff|]. intros j Hj. lia.
  - destruct (py_index rest x) as [m|]; simpl; [|discriminate].
    intros [= <-]. destruct (IH m eq_refl) as (L & V & N).
    split; [lia|]. split; [exact V|].
    intros [|j] Hj; [now apply Qeq_bool_neq | apply N; lia].
Qed.

Lemma py_index_In (l : list Q) (x : Q) :
  In x l -> exists n, py_index l x = Some n.
Proof.
  induction l as [|y rest IH]; simpl; [intros []|].
  intros I. destruct (Qeq_bool y x) eqn:E; [now exists O|].
  destruct I as [-> | I].
  - rewrite Qeq_bool_refl in E. discriminate.
  - destruct (IH I) as [n ->]. now exists (S n).
Qed.

(** The tail of [calculate_ispu_manual], from the list of sub-indices on. *)
Lemma aggregate_six (subs : list Q) :
  List.length subs = 6%nat ->
  exists (ispu : Q) (idx : nat) (dominant : string),
    py_max subs = Some ispu /\
    py_index subs ispu = Some idx /\
    nth_error pollutants idx = Some dominant.
Proof.
  intros Len. destruct subs as [|first rest]; [discriminate|].
  exists (max_from first rest).
  destruct (py_index_In (first :: rest) (max_from first rest) (max_from_In _ _)) as [idx E].
  exists idx.
  destruct (py_index_spec _ _ _ E) as (L & _).
  destruct (nth_error pollutants idx) as [dominant|] eqn:N.
  - exists dominant. auto.
  - apply nth_error_None in N. simpl in N. lia.
Qed.

(** Every call made by [calculate_ispu_manual] finds its table. *)
Lemma calculate_sub_index_total (C : Q) (p : string) :
  In p (map fst thresholds) -> exists v, calculate_sub_index C p = Some v.
Proof.
  intros I. unfold calculate_sub_index.
  destruct (dict_get thresholds p) as [thresh|] eqn:E.
  - simpl. rewrite sub_index_of_spec; [eauto|]. now apply table_wf in E.
  - simpl in I.
    repeat (destruct I as [<- | I]; [discriminate E|]). destruct I.
Qed.

Ltac six_keys := simpl; tauto.

(** C3. For every input the overall index is the maximum of the six
    sub-indices, and the reported pollutant is, in the order
    [PM10, PM2.5, SO2, NO2, O3, CO], the first whose sub-index equals it. *)
Theorem ispu_is_max_first_dominant (pm10 pm2_5 so2 no2 o3 co : Q) :
  exists (ispu : Q) (sub_indices : list Q) (dominant : string) (idx : nat),
    calculate_ispu_manual pm10 pm2_5 so2 no2 o3 co = Some (ispu, sub_indices, dominant) /\
    map Some sub_indices =
      [ calculate_sub_index pm10 "pm10"; calculate_sub_index pm2_5 "pm2_5";
        calculate_sub_index so2 "so2"; calculate_sub_index no2 "no2";
        calculate_sub_index o3 "o3"; calculate_sub_index (co * 1000) "co" ] /\
    In ispu sub_indices /\
    Forall (fun s => s <= ispu) sub_indices /\
    nth_error [ "PM10"; "PM2.5"; "SO₂"; "NO₂"; "O₃"; "CO" ]%string idx = Some dominant /\
    nth idx sub_indices 0 == ispu /\
    (forall j, (j < idx)%nat -> ~ nth j sub_indices 0 == ispu).
Proof.
  unfold calculate_ispu_manual.
  destruct (calculate_sub_index_total pm10 "pm10") as [s1 ->]; [six_keys|].
  destruct (calculate_sub_index_total pm2_5 "pm2_5") as [s2 ->]; [six_keys|].
  destruct (calculate_sub_index_total so2 "so2") as [s3 ->]; [six_keys|].
  destruct (calculate_sub_index_total no2 "no2") as [s4 ->]; [six_keys|].
  destruct (calculate_sub_index_total o3 "o3") as [s5 ->]; [six_keys|].
  destruct (calculate_sub_index_total (co * 1000) "co") as [s6 ->]; [six_keys|].
  cbn [bind].
  destruct (aggregate_six [s1; s2; s3; s4; s5; s6] eq_refl) as (ispu & idx & dom & M & I & D).
  rewrite M. cbn [bind]. rewrite I. cbn [bind]. rewrite D. cbn [bind].
  exists ispu, [s1; s2; s3; s4; s5; s6], dom, idx.
  destruct (py_max_spec _ _ M) as (In_m & Up).
  destruct (py_index_spec _ _ _ I) as (_ & V & N).
  repeat split; auto.
Qed.

(** ** Monotonicity of the overall index in one reading *)

Lemma calculate_ispu_manual_max (pm10 pm2_5 so2 no2 o3 co : Q) :
  let subs := [ spec_sub_index (table "pm10") pm10;
                spec_sub_index (table "pm2_5") pm2_5;
                spec_sub_index (table "so2") so2;
                spec_sub_index (table "no2") no2;
                spec_sub_index (table "o3") o3;
                spec_sub_index (table "co") (co * 1000) ] in
  exists (ispu : Q) (dominant : string),
    calculate_ispu_manual pm10 pm2_5 so2 no2 o3 co = Some (ispu, subs, dominant) /\
    In ispu subs /\ Forall (fun s => s <= ispu) subs.
Proof.
  intros subs. unfold calculate_ispu_manual.
  rewrite (calculate_sub_index_spec "pm10" (table "pm10")) by reflexivity.
  rewrite (calculate_sub_index_spec "pm2_5" (table "pm2_5")) by reflexivity.
  rewrite (calculate_sub_index_spec "so2" (table "so2")) by reflexivity.
  rewrite (calculate_sub_index_spec "no2" (table "no2")) by reflexivity.
  rewrite (calculate_sub_index_spec "o3" (table "o3")) by reflexivity.
  rewrite (calculate_sub_index_spec "co" (table "co")) by reflexivity.
  cbn [bind]. fold subs.
  destruct (aggregate_six subs eq_refl) as (ispu & idx & dom & M & I & D).
  rewrite M. cbn [bind]. rewrite I. cbn [bind]. rewrite D. cbn [bind].
  exists ispu, dom. split; [reflexivity|]. now apply py_max_spec.
Qed.

Lemma table_mono (p : string) (c1 c2 : Q) :
  In p (map fst thresholds) -> 0 <= c1 -> c1 <= c2 ->
  spec_sub_index (table p) c1 <= spec_sub_index (table p) c2.
Proof.
  intros I C0 L. unfold table.
  destruct (dict_get thresholds p) as [thresh|] eqn:E.
  - destruct (table_wf p thresh E) as (Len & Inc & Z0).
    now apply spec_sub_index_mono.
  - simpl in I. repeat (destruct I as [<- | I]; [discriminate E|]). destruct I.
Qed.

Lemma table_nonneg (p : string) (c : Q) :
  In p (map fst thresholds) -> 0 <= c -> 0 <= spec_sub_index (table p) c.
Proof.
  intros I C0. unfold table.
  destruct (dict_get thresholds p) as [thresh|] eqn:E.
  - destruct (table_wf p thresh E) as (Len & Inc & Z0).
    destruct (spec_sub_index_range thresh Len Inc Z0 c C0) as [[A _] | ->]; lra.
  - simpl in I. repeat (destruct I as [<- | I]; [discriminate E|]). destruct I.
Qed.

(** A reading of 0 has sub-index 0, for each of the six pollutants. *)
Lemma table_zero :
  Forall (fun p => spec_sub_index (table p) 0 == 0 /\
                   spec_sub_index (table p) (0 * 1000) == 0)
         (map fst thresholds).
Proof. repeat (apply Forall_cons; [split; reflexivity|]). apply Forall_nil. Qed.

Lemma table_zero_le (p q : string) (c : Q) :
  In p (map fst thresholds) -> In q (map fst thresholds) -> 0 <= c ->
  spec_sub_index (table p) 0 <= spec_sub_index (table q) c /\
  spec_sub_index (table p) (0 * 1000) <= spec_sub_index (table q) c.
Proof.
  intros P R C0. pose proof (table_nonneg q c R C0) as N.
  pose proof table_zero as Z. rewrite Forall_forall in Z.
  destruct (Z p P) as [Z1 Z2]. rewrite Z1, Z2. split; exact N.
Qed.

(** Closes [index_le] for two runs that differ in one reading: every
    sub-index of the first run is below the changed sub-index of the second. *)
Ltac one_reading_mono p x2 :=
  match goal with
  | |- index_le (calculate_ispu_manual ?a1 ?b1 ?c1 ?d1 ?e1 ?f1)
                (calculate_ispu_manual ?a2 ?b2 ?c2 ?d2 ?e2 ?f2) =>
      destruct (calculate_ispu_manual_max a1 b1 c1 d1 e1 f1) as (v1 & dom1 & R1 & I1 & _);
      destruct (calculate_ispu_manual_max a2 b2 c2 d2 e2 f2) as (v2 & dom2 & R2 & _ & U2);
      rewrite R1, R2;
      do 6 eexists; split; [reflexivity|]; split; [reflexivity|];
      assert (Top : spec_sub_index (table p) x2 <= v2)
        by (rewrite Forall_forall in U2; apply U2; simpl; tauto);
      apply Qle_trans with (2 := Top);
      simpl in I1;
      repeat (destruct I1 as [<- | I1];
              [ first [ apply table_mono; [six_keys | lra | lra ]
                      | apply table_zero_le; [six_keys | six_keys | lra ] ] | ]);
      destruct I1
  end.

(** C6. For each of the six pollutants and [0 <= c1 <= c2], the overall
    index with that pollutant at [c2] and the other readings at 0 is at least
    the overall index with that pollutant at [c1] and the others at 0. *)
Theorem overall_index_monotone (c1 c2 : Q) :
  0 <= c1 -> c1 <= c2 ->
  index_le (calculate_ispu_manual c1 0 0 0 0 0) (calculate_ispu_manual c2 0 0 0 0 0) /\
  index_le (calculate_ispu_manual 0 c1 0 0 0 0) (calculate_ispu_manual 0 c2 0 0 0 0) /\
  index_le (calculate_ispu_manual 0 0 c1 0 0 0) (calculate_ispu_manual 0 0 c2 0 0 0) /\
  index_le (calculate_ispu_manual 0 0 0 c1 0 0) (calculate_ispu_manual 0 0 0 c2 0 0) /\
  index_le (calculate_ispu_manual 0 0 0 0 c1 0) (calculate_ispu_manual 0 0 0 0 c2 0) /\
  index_le (calculate_ispu_manual 0 0 0 0 0 c1) (calculate_ispu_manual 0 0 0 0 0 c2).
Proof.
  intros C0 L.
  assert (C2 : 0 <= c2) by lra.
  assert (C0k : 0 <= c1 * 1000) by lra.
  assert (Lk : c1 * 1000 <= c2 * 1000) by lra.
  assert (C2k : 0 <= c2 * 1000) by lra.
  split; [one_reading_mono "pm10"%string c2|].
  split; [one_reading_mono "pm2_5"%string c2|].
  split; [one_reading_mono "so2"%string c2|].
  split; [one_reading_mono "no2"%string c2|].
  split; [one_reading_mono "o3"%string c2|].
  one_reading_mono "co"%string (c2 * 1000).
Qed.

Lemma overall_index_monotone_witness :
  index_le (calculate_ispu_manual 0 0 0 0 0 4) (calculate_ispu_manual 0 0 0 0 0 50).
Proof.
  apply (overall_index_monotone 4 50).
  - unfold Qle; simpl; lia.
  - unfold Qle; simpl; lia.
Defined.

(** ** Classification *)

Lemma Qle_bool_compat (x y c : Q) : x == y -> Qle_bool x c = Qle_bool y c.
Proof.
  intros E. destruct (Qle_bool y c) eqn:Y.
  - apply Qle_bool_iff. apply Qle_bool_iff in Y. lra.
  - destruct (Qle_bool x c) eqn:X; auto.
    apply Qle_bool_iff in X. assert (y <= c) by lra.
    apply Qle_bool_iff in H. congruence.
Qed.

(** C4. The category depends on the index value alone, with closed upper
    boundaries at 50, 100, 200 and 300. *)
Theorem category_boundaries (x : Q) :
  (forall y, x == y -> classify_based_on_ispu x = classify_based_on_ispu y) /\
  (x <= 50 -> classify_based_on_ispu x = "Baik 🟢"%string) /\
  (50 < x /\ x <= 100 -> classify_based_on_ispu x = "Sedang 🟡"%string) /\
  (100 < x /\ x <= 200 -> classify_based_on_ispu x = "Tidak Sehat 🟠"%string) /\
  (200 < x /\ x <= 300 -> classify_based_on_ispu x = "Sangat Tidak Sehat 🔴"%string) /\
  (300 < x -> classify_based_on_ispu x = "Berbahaya 🟣"%string) /\
  classify_based_on_ispu 50 = "Baik 🟢"%string /\
  classify_based_on_ispu 50.01 = "Sedang 🟡"%string /\
  classify_based_on_ispu 300 = "Sangat Tidak Sehat 🔴"%string /\
  classify_based_on_ispu 300.01 = "Berbahaya 🟣"%string.
Proof.
  split.
  { intros y E. unfold classify_based_on_ispu.
    now rewrite !(Qle_bool_compat x y _ E). }
  unfold classify_based_on_ispu.
  destruct (Qle_bool x 50) eqn:E1;
    [apply Qle_bool_iff in E1 | apply not_true_iff_false in E1; rewrite Qle_bool_iff in E1];
  (destruct (Qle_bool x 100) eqn:E2;
    [apply Qle_bool_iff in E2 | apply not_true_iff_false in E2; rewrite Qle_bool_iff in E2]);
  (destruct (Qle_bool x 200) eqn:E3;
    [apply Qle_bool_iff in E3 | apply not_true_iff_false in E3; rewrite Qle_bool_iff in E3]);
  (destruct (Qle_bool x 300) eqn:E4;
    [apply Qle_bool_iff in E4 | apply not_true_iff_false in E4; rewrite Qle_bool_iff in E4]);
  repeat split; intros; try reflexivity; exfalso; lra.
Qed.

(** C10. The two classifiers cut the index range at the same thresholds, and
    the name given by [classify_based_on_ispu] is the label given by
    [classify_air_quality] followed by a space and an emoji. *)
Theorem classifiers_agree (x : Q) :
  let label := fst (fst (classify_air_quality x)) in
  exists emoji : string,
    classify_based_on_ispu x = (label ++ " " ++ emoji)%string /\
    ((x <= 50 /\ label = "Baik" /\ emoji = "🟢") \/
     (50 < x /\ x <= 100 /\ label = "Sedang" /\ emoji = "🟡") \/
     (100 < x /\ x <= 200 /\ label = "Tidak Sehat" /\ emoji = "🟠") \/
     (200 < x /\ x <= 300 /\ label = "Sangat Tidak Sehat" /\ emoji = "🔴") \/
     (300 < x /\ label = "Berbahaya" /\ emoji = "🟣"))%string.
Proof.
  unfold classify_based_on_ispu, classify_air_quality.
  destruct (Qle_bool x 50) eqn:E1.
  { apply Qle_bool_iff in E1. eexists. split; [reflexivity|]. left. auto. }
  apply not_true_iff_false in E1. rewrite Qle_bool_iff in E1. apply Qnot_le_lt in E1.
  destruct (Qle_bool x 100) eqn:E2.
  { apply Qle_bool_iff in E2. eexists. split; [reflexivity|]. right. left. auto. }
  apply not_true_iff_false in E2. rewrite Qle_bool_iff in E2. apply Qnot_le_lt in E2.
  destruct (Qle_bool x 200) eqn:E3.
  { apply Qle_bool_iff in E3. eexists. split; [reflexivity|]. do 2 right. left. auto. }
  apply not_true_iff_false in E3. rewrite Qle_bool_iff in E3. apply Qnot_le_lt in E3.
  destruct (Qle_bool x 300) eqn:E4.
  { apply Qle_bool_iff in E4. eexists. split; [reflexivity|]. do 3 right. left. auto. }
  apply not_true_iff_false in E4. rewrite Qle_bool_iff in E4. apply Qnot_le_lt in E4.
  eexists. split; [reflexivity|]. do 4 right. auto.
Qed.

(** ** The regression scenario *)

(** A PM2.5 reading of 35 lies past the breakpoint 15.5: it is interpolated in
    band 1, between index 50 and index 100. *)
Lemma pm2_5_35_not_in_band_0 :
  first_band [0; 15.5; 55.4; 150.4; 250.4; 350.4] 35 = Some 1%nat /\
  calculate_sub_index 35 "pm2_5" = Some 74.44 /\
  ~ (exists v, calculate_sub_index 35 "pm2_5" = Some v /\ 0 <= v /\ v <= 50).
Proof.
  split; [reflexivity|]. split; [reflexivity|].
  intros (v & E & _ & V).
  change (calculate_sub_index 35 "pm2_5") with (Some 74.44) in E.
  injection E as <-. revert V. unfold Qle; simpl; lia.
Qed.

(** C8, amended. For pm10=50, pm2_5=35, so2=20, no2=40, o3=50, co=4.0: CO is
    normalised to 4000, its first breakpoint, with sub-index 50; PM2.5 is
    interpolated between 15.5 and 55.4 in band 1 and its sub-index 74.44 lies
    between 50 and 100; the overall index is the maximum 74.44 of the six
    sub-indices, the dominant pollutant is PM2.5 and the category is that of
    74.44. *)
Theorem regression_scenario :
  4.0 * 1000 == 4000 /\
  nth_error (table "co") 1 = Some 4000 /\
  calculate_sub_index (4.0 * 1000) "co" = Some 50.00 /\
  first_band (table "pm2_5") 35 = Some 1%nat /\
  nth 1 (table "pm2_5") 0 = 15.5 /\ nth 2 (table "pm2_5") 0 = 55.4 /\
  calculate_sub_index 35 "pm2_5" = Some 74.44 /\
  50 <= 74.44 /\ 74.44 <= 100 /\
  calculate_ispu_manual 50 35 20 40 50 4.0 =
    Some (74.44, [50.00; 74.44; 19.23; 25.00; 20.83; 50.00], "PM2.5"%string) /\
  Forall (fun s => s <= 74.44) [50.00; 74.44; 19.23; 25.00; 20.83; 50.00] /\
  classify_based_on_ispu 74.44 = "Sedang 🟡"%string.
Proof.
  split; [reflexivity|].
  do 6 (split; [reflexivity|]).
  split; [unfold Qle; simpl; lia|].
  split; [unfold Qle; simpl; lia|].
  split; [reflexivity|].
  split; [repeat constructor; unfold Qle; simpl; lia|].
  reflexivity.
Qed.

(** ** Validation *)

Lemma check_range_app (errors : list string) (item : string * Q) :
  check_range errors item = errors ++ range_message item.
Proof.
  unfold range_message, check_range. destruct item as [name value].
  destruct (Qlt_bool value 0); [reflexivity|].
  destruct (Qlt_bool 10000 value); [reflexivity|].
  now rewrite app_nil_r.
Qed.

Lemma fold_check_range (items : list (string * Q)) (errors : list string) :
  fold_left check_range items errors = errors ++ flat_map range_message items.
Proof.
  revert errors. induction items as [|item rest IH]; intros errors; simpl.
  - now rewrite app_nil_r.
  - rewrite IH, check_range_app, app_assoc. reflexivity.
Qed.

Lemma range_message_length (item : string * Q) :
  List.length (range_message item) = if out_of_range (snd item) then 1%nat else 0%nat.
Proof.
  unfold range_message, check_range, out_of_range. destruct item as [name value]. simpl.
  destruct (Qlt_bool value 0); [reflexivity|].
  destruct (Qlt_bool 10000 value); reflexivity.
Qed.

Lemma range_messages_length (items : list (string * Q)) :
  List.length (flat_map range_message items) =
  List.length (filter (fun kv => out_of_range (snd kv)) items).
Proof.
  induction items as [|item rest IH]; simpl; [reflexivity|].
  rewrite length_app, IH, range_message_length.
  destruct (out_of_range (snd item)); reflexivity.
Qed.

Lemma out_of_range_false (value : Q) :
  out_of_range value = false <-> 0 <= value /\ value <= 10000.
Proof.
  unfold out_of_range. rewrite orb_false_iff, !Qlt_bool_false. tauto.
Qed.

Lemma dict_set_fresh {V : Type} (d : dict V) (k : string) (v : V) :
  ~ In k (map fst d) -> dict_set d k v = d ++ [(k, v)].
Proof.
  induction d as [|[k' v'] d IH]; simpl; intros N; [reflexivity|].
  destruct (String.eqb k' k) eqn:E.
  - apply String.eqb_eq in E. tauto.
  - rewrite IH; tauto.
Qed.

Lemma fold_lower_keys (inputs acc : dict Q) :
  NoDup (map fst acc ++ map (fun kv => lower (fst kv)) inputs) ->
  fold_left (fun d kv => dict_set d (lower (fst kv)) (snd kv)) inputs acc =
  acc ++ map lower_item inputs.
Proof.
  revert acc. induction inputs as [|kv rest IH]; intros acc N; simpl.
  - now rewrite app_nil_r.
  - simpl in N. rewrite dict_set_fresh.
    + rewrite IH.
      * rewrite <- app_assoc. reflexivity.
      * rewrite map_app, <- app_assoc. exact N.
    + apply NoDup_remove_2 in N. intros I. apply N. apply in_or_app. now left.
Qed.

Lemma lower_keys_distinct (inputs : dict Q) :
  distinct_keys inputs -> lower_keys inputs = map lower_item inputs.
Proof.
  intros N. unfold lower_keys. now rewrite fold_lower_keys.
Qed.

Lemma dict_get_lower_In (inputs : dict Q) (v : Q) :
  distinct_keys inputs ->
  dict_get (map lower_item inputs) "co" = Some v <->
  exists k, In (k, v) inputs /\ lower k = "co"%string.
Proof.
  unfold distinct_keys.
  induction inputs as [|[k' v'] rest IH]; simpl; intros N.
  - split; [discriminate | intros (k & [] & _)].
  - inversion N as [|x l Notin N' E]; subst.
    destruct (String.eqb (lower k') "co") eqn:E.
    + apply String.eqb_eq in E. split.
      * intros [= ->]. exists k'. auto.
      * intros (k & [[= -> ->] | I] & L); [reflexivity|].
        exfalso. apply Notin. rewrite E, <- L.
        apply (in_map (fun kv => lower (fst kv)) rest (k, v) I).
    + rewrite (IH N'). split.
      * intros (k & I & L). exists k. auto.
      * intros (k & [[= -> ->] | I] & L); [|exists k; auto].
        rewrite L in E. discriminate.
Qed.

(** [validate_inputs] as the range messages followed by the CO message. *)
Lemma validate_inputs_messages (inputs : dict Q) :
  validate_inputs inputs =
  flat_map range_message (lower_keys inputs) ++
  (if Qlt_bool 100 (match dict_get (lower_keys inputs) "co" with
                    | Some v => v
                    | None => 0
                    end)
   then [co_message] else []).
Proof.
  unfold validate_inputs. rewrite fold_check_range. simpl.
  destruct (Qlt_bool 100 _); [reflexivity | now rewrite app_nil_r].
Qed.

Lemma flat_map_range_nil (items : list (string * Q)) :
  flat_map range_message items = [] <->
  forall k v, In (k, v) items -> 0 <= v /\ v <= 10000.
Proof.
  induction items as [|[k' v'] rest IH]; cbn [flat_map In].
  - split; [intros _ k v [] | reflexivity].
  - split.
    + intros H. apply app_eq_nil in H. destruct H as [H1 H2].
      intros k v [[= -> ->] | I]; [|now apply (proj1 IH H2 k v)].
      apply out_of_range_false.
      pose proof (range_message_length (k, v)) as L. rewrite H1 in L.
      cbn [List.length snd] in L.
      destruct (out_of_range v); [discriminate | reflexivity].
    + intros H.
      assert (R : range_message (k', v') = []).
      { apply length_zero_iff_nil. rewrite range_message_length. cbn [snd].
        destruct (H k' v' (or_introl eq_refl)) as [A B].
        now rewrite (proj2 (out_of_range_false v')). }
      rewrite R. cbn [app]. apply IH. intros k v I. apply (H k v). now right.
Qed.

Lemma filter_lower_item_length (inputs : dict Q) :
  List.length (filter (fun kv => out_of_range (snd kv)) (map lower_item inputs)) =
  List.length (filter (fun kv => out_of_range (snd kv)) inputs).
Proof.
  induction inputs as [|kv rest IH]; cbn [map filter lower_item snd]; [reflexivity|].
  destruct (out_of_range (snd kv)); cbn [List.length]; now rewrite IH.
Qed.

Lemma co_reading_In (inputs : dict Q) (k : string) (v : Q) :
  distinct_keys inputs -> In (k, v) inputs -> lower k = "co"%string ->
  co_reading inputs = v.
Proof.
  intros N I L. unfold co_reading. rewrite lower_keys_distinct by assumption.
  assert (E : dict_get (map lower_item inputs) "co" = Some v)
    by (apply dict_get_lower_In; eauto).
  now rewrite E.
Qed.

Lemma validate_inputs_nil (inputs : dict Q) :
  distinct_keys inputs ->
  validate_inputs inputs = [] <->
  (forall k v, In (k, v) inputs -> 0 <= v /\ v <= 10000) /\ co_reading inputs <= 100.
Proof.
  intros N. rewrite validate_inputs_messages. fold (co_reading inputs).
  rewrite lower_keys_distinct by assumption.
  split.
  - intros H. apply app_eq_nil in H. destruct H as [R C]. split.
    + intros k v I. apply (proj1 (flat_map_range_nil _) R (lower k) v).
      apply (in_map lower_item inputs (k, v) I).
    + destruct (Qlt_bool 100 (co_reading inputs)) eqn:E; [discriminate|].
      now apply Qlt_bool_false.
  - intros [R C].
    rewrite (proj2 (Qlt_bool_false 100 (co_reading inputs)) C), app_nil_r.
    apply flat_map_range_nil. intros k v I.
    apply in_map_iff in I. destruct I as ([k0 v0] & [= <- <-] & I). eauto.
Qed.

Lemma validate_inputs_length (inputs : dict Q) :
  distinct_keys inputs ->
  List.length (validate_inputs inputs) =
  (List.length (filter (fun kv => out_of_range (snd kv)) inputs)
   + if Qlt_bool 100 (co_reading inputs) then 1 else 0)%nat.
Proof.
  intros N. rewrite validate_inputs_messages. fold (co_reading inputs).
  rewrite length_app, range_messages_length.
  rewrite lower_keys_distinct by assumption.
  rewrite filter_lower_item_length.
  destruct (Qlt_bool 100 (co_reading inputs)); reflexivity.
Qed.

Lemma page_inputs_distinct (pm10 pm2_5 so2 no no2 o3 co nh3 : Q) :
  distinct_keys (page_inputs pm10 pm2_5 so2 no no2 o3 co nh3).
Proof.
  unfold distinct_keys, page_inputs.
  change (NoDup ["pm10"; "pm2_5"; "so2"; "no"; "no2"; "o3"; "co"; "nh3"]%string).
  repeat (constructor;
          [ simpl; intros H; repeat (destruct H as [H | H]; [discriminate H|]); exact H | ]).
  constructor.
Qed.

Lemma page_co_reading (pm10 pm2_5 so2 no no2 o3 co nh3 : Q) :
  co_reading (page_inputs pm10 pm2_5 so2 no no2 o3 co nh3) = co.
Proof.
  apply (co_reading_In _ "co"%string co).
  - apply page_inputs_distinct.
  - simpl. tauto.
  - reflexivity.
Qed.

(** The gate: messages are shown and nothing else happens, or there is no
    message and the engine is called once. *)
Lemma run_prediction_gate (pm10 pm2_5 so2 no no2 o3 co nh3 : Q) :
  let errors := validate_inputs (page_inputs pm10 pm2_5 so2 no no2 o3 co nh3) in
  let run := run_prediction pm10 pm2_5 so2 no no2 o3 co nh3 in
  (errors <> [] -> engine_calls run = [] /\ prediction run = None /\
                   List.length (shown_errors run) = List.length errors) /\
  (errors = [] -> engine_calls run = [(pm10, pm2_5, so2, no2, o3, co)] /\
                  shown_errors run = []).
Proof.
  intros errors run. unfold run, run_prediction. fold errors.
  destruct errors as [|e rest].
  - split; [congruence | auto].
  - split; [|discriminate]. intros _. cbn [engine_calls prediction shown_errors].
    now rewrite length_map.
Qed.

(** A CO reading above 10000 is one offending field with two messages. *)
Lemma co_above_10000_two_messages :
  validate_inputs (page_inputs 0 0 0 0 0 0 20000 0) =
    [ "CO terlalu tinggi (maksimal 10000)";
      "Nilai CO terlalu tinggi (maksimal 100 mg/m³)" ]%string /\
  filter offending (page_inputs 0 0 0 0 0 0 20000 0) = [("co"%string, 20000)] /\
  ~ (forall inputs : dict Q,
        distinct_keys inputs ->
        List.length (validate_inputs inputs) = List.length (filter offending inputs)).
Proof.
  split; [reflexivity|]. split; [reflexivity|].
  intros H.
  specialize (H (page_inputs 0 0 0 0 0 0 20000 0) (page_inputs_distinct _ _ _ _ _ _ _ _)).
  discriminate H.
Qed.

(** Two keys that differ only in letter case: the later reading replaces the
    earlier one before any check is made. *)
Lemma validate_inputs_case_collision :
  validate_inputs [("CO", -5); ("co", 3)]%string = [].
Proof. reflexivity. Qed.

(** C7, amended. For an input map whose keys stay distinct when letter case
    is ignored: no message is returned exactly when every reading is in
    [0, 10000] and the CO reading is at most 100; the messages are one per
    reading outside [0, 10000] plus one more when CO is above 100; the
    prediction page calls the engine only when there is no message; with
    co = 150 the CO message is returned and the engine is not called. *)
Theorem validation_gate (inputs : dict Q) (pm10 pm2_5 so2 no no2 o3 co nh3 : Q) :
  distinct_keys inputs ->
  (forall k v, In (k, v) inputs -> lower k = "co"%string -> co_reading inputs = v) /\
  (validate_inputs inputs = [] <->
   (forall k v, In (k, v) inputs -> 0 <= v /\ v <= 10000) /\ co_reading inputs <= 100) /\
  List.length (validate_inputs inputs) =
    (List.length (filter (fun kv => out_of_range (snd kv)) inputs)
     + if Qlt_bool 100 (co_reading inputs) then 1 else 0)%nat /\
  (let errors := validate_inputs (page_inputs pm10 pm2_5 so2 no no2 o3 co nh3) in
   let run := run_prediction pm10 pm2_5 so2 no no2 o3 co nh3 in
   (errors <> [] -> engine_calls run = [] /\ prediction run = None /\
                    List.length (shown_errors run) = List.length errors) /\
   (errors = [] -> engine_calls run = [(pm10, pm2_5, so2, no2, o3, co)])) /\
  (let errors := validate_inputs (page_inputs pm10 pm2_5 so2 no no2 o3 150 nh3) in
   let run := run_prediction pm10 pm2_5 so2 no no2 o3 150 nh3 in
   In co_message errors /\ range_message ("co"%string, 150) = [] /\
   engine_calls run = [] /\ prediction run = None).
Proof.
  intros N.
  split; [intros k v; now apply co_reading_In|].
  split; [now apply validate_inputs_nil|].
  split; [now apply validate_inputs_length|].
  split.
  { destruct (run_prediction_gate pm10 pm2_5 so2 no no2 o3 co nh3) as [A B].
    split; [exact A | intros E; now apply B]. }
  intros errors run.
  assert (I : In co_message errors).
  { unfold errors. rewrite validate_inputs_messages.
    fold (co_reading (page_inputs pm10 pm2_5 so2 no no2 o3 150 nh3)).
    rewrite page_co_reading. apply in_or_app. right. now left. }
  split; [exact I|]. split; [reflexivity|].
  destruct (run_prediction_gate pm10 pm2_5 so2 no no2 o3 150 nh3) as [A _].
  destruct A as (A1 & A2 & _); [|now split].
  fold errors. intros E. rewrite E in I. destruct I.
Qed.

Lemma validation_gate_witness :
  validate_inputs (page_inputs 50 35 20 0 40 50 4 0) = [] <->
  (forall k v, In (k, v) (page_inputs 50 35 20 0 40 50 4 0) -> 0 <= v /\ v <= 10000) /\
  co_reading (page_inputs 50 35 20 0 40 50 4 0) <= 100.
Proof.
  apply (validation_gate (page_inputs 50 35 20 0 40 50 4 0) 50 35 20 0 40 50 4 0).
  unfold distinct_keys. vm_compute.
  repeat (constructor;
          [ simpl; intros H; repeat (destruct H as [H | H]; [discriminate H|]); exact H | ]).
  constructor.
Defined.

(** * Further properties of the engine *)

(** The six cases of a lookup in [thresholds]. *)
Ltac table_cases T :=
  apply dict_get_In in T; simpl in T;
  repeat (destruct T as [T | T]; [injection T as <- <- | ]); [ .. | destruct T ].

Lemma spec_sub_index_at_breakpoint (p : string) (thresh : list Q) (k : nat) :
  dict_get thresholds p = Some thresh ->
  (k <= 5)%nat ->
  spec_sub_index thresh (nth k thresh 0) == inject_Z (50 * Z.of_nat k).
Proof.
  intros T K.
  table_cases T; (do 6 (destruct k as [|k]; [reflexivity|]); lia).
Qed.

(** At its [k]-th breakpoint every pollutant has sub-index [50 * k]: the
    bands meet without a jump, from 0 at [thresh[0]] to 250 at [thresh[5]]. *)
Theorem sub_index_at_breakpoint (p : string) (thresh : list Q) (k : nat) :
  dict_get thresholds p = Some thresh ->
  (k <= 5)%nat ->
  exists v, calculate_sub_index (nth k thresh 0) p = Some v /\
            v == inject_Z (50 * Z.of_nat k).
Proof.
  intros T K. rewrite (calculate_sub_index_spec p thresh _ T).
  eexists. split; [reflexivity|]. now apply (spec_sub_index_at_breakpoint p).
Qed.

Lemma sub_index_at_breakpoint_witness :
  exists v, calculate_sub_index (nth 3 [0; 52; 180; 400; 800; 1200] 0) "so2" = Some v /\
            v == inject_Z (50 * Z.of_nat 3).
Proof.
  apply (sub_index_at_breakpoint "so2" [0; 52; 180; 400; 800; 1200] 3).
  - reflexivity.
  - lia.
Defined.

Lemma spec_sub_index_grid (thresh : list Q) (C : Q) :
  exists n : Z, spec_sub_index thresh C == n # 100.
Proof.
  unfold spec_sub_index. destruct (first_band thresh C) as [i|].
  - unfold interpolate. destruct (Qeq_bool _ _).
    + exists (Z.of_nat i * 50 * 100)%Z. unfold Qeq, inject_Z. simpl. lia.
    + eexists. unfold py_round2. reflexivity.
  - exists 50000%Z. reflexivity.
Qed.

(** Every sub-index and the overall index are multiples of 0.01, whatever the
    readings. *)
Theorem ispu_two_decimals (pm10 pm2_5 so2 no2 o3 co : Q) :
  exists (ispu : Q) (sub_indices : list Q) (dominant : string),
    calculate_ispu_manual pm10 pm2_5 so2 no2 o3 co = Some (ispu, sub_indices, dominant) /\
    List.length sub_indices = 6%nat /\
    (exists n : Z, ispu == n # 100) /\
    Forall (fun s => exists n : Z, s == n # 100) sub_indices.
Proof.
  destruct (calculate_ispu_manual_max pm10 pm2_5 so2 no2 o3 co) as (ispu & dom & R & I & _).
  eexists ispu, _, dom. split; [exact R|]. split; [reflexivity|].
  assert (G : Forall (fun s => exists n : Z, s == n # 100)
                [ spec_sub_index (table "pm10") pm10;
                  spec_sub_index (table "pm2_5") pm2_5;
                  spec_sub_index (table "so2") so2;
                  spec_sub_index (table "no2") no2;
                  spec_sub_index (table "o3") o3;
                  spec_sub_index (table "co") (co * 1000) ])
    by (repeat (apply Forall_cons; [apply spec_sub_index_grid|]); apply Forall_nil).
  split; [|exact G].
  rewrite Forall_forall in G. now apply G.
Qed.

Lemma py_round2_upper (n : Z) (x : Q) : x <= inject_Z n -> py_round2 x <= inject_Z n.
Proof.
  intros L. rewrite <- (py_round2_Z n). now apply py_round2_mono.
Qed.

Lemma py_round2_lower (n : Z) (x : Q) : inject_Z n <= x -> inject_Z n <= py_round2 x.
Proof.
  intros L. rewrite <- (py_round2_Z n). now apply py_round2_mono.
Qed.

(** A negative concentration is not rejected or clamped by the engine: it is
    extrapolated downwards in band 0, so the sub-index is at most 0, and at
    most -50 once the concentration is below minus the first breakpoint. *)
Theorem sub_index_negative (p : string) (thresh : list Q) (C : Q) :
  dict_get thresholds p = Some thresh ->
  C < 0 ->
  exists v, calculate_sub_index C p = Some v /\
            v <= 0 /\
            (C <= - nth 1 thresh 0 -> v <= -50).
Proof.
  intros T Neg. rewrite (calculate_sub_index_spec p thresh C T).
  destruct (table_wf p thresh T) as (Len & Inc & Z0).
  pose proof (Inc 0%nat 1%nat ltac:(lia)) as Step.
  assert (E : first_band thresh C = Some 0%nat).
  { unfold first_band. simpl.
    rewrite (proj2 (Qle_bool_iff C (nth 1 thresh 0))) by lra. reflexivity. }
  eexists. split; [reflexivity|].
  unfold spec_sub_index. rewrite E.
  rewrite (interpolate_unfold thresh 0 C Step).
  change (0 + 1)%nat with 1%nat. change (inject_Z (Z.of_nat 0 * 50)) with 0.
  set (d := nth 1 thresh 0 - nth 0 thresh 0).
  assert (D : 0 < d) by (unfold d; lra).
  pose proof (slope_mono d (C - nth 0 thresh 0) 0 D ltac:(lra)) as M0.
  split.
  - apply (py_round2_upper 0). change (inject_Z 0) with 0. lra.
  - intros Far.
    pose proof (slope_mono d (C - nth 0 thresh 0) (- d) D ltac:(unfold d; lra)) as M.
    assert (F : 50 / d * - d == -50) by (field; lra).
    apply (py_round2_upper (-50)). change (inject_Z (-50)) with (-50). lra.
Qed.

Lemma sub_index_negative_witness :
  exists v, calculate_sub_index (-60) "pm10" = Some v /\
            v <= 0 /\
            (-60 <= - nth 1 [0; 50; 150; 350; 420; 500] 0 -> v <= -50).
Proof.
  apply (sub_index_negative "pm10" [0; 50; 150; 350; 420; 500] (-60)).
  - reflexivity.
  - reflexivity.
Defined.

Lemma dict_get_None {V : Type} (d : dict V) (k : string) :
  ~ In k (map fst d) -> dict_get d k = None.
Proof.
  induction d as [|[k' v'] d IH]; simpl; intros N; [reflexivity|].
  destruct (String.eqb k' k) eqn:E.
  - apply String.eqb_eq in E. tauto.
  - apply IH. tauto.
Qed.

(** The lookup of the table is the only way a sub-index can fail: the call
    raises [KeyError] exactly for a key other than the six lower-case keys,
    whatever the concentration. *)
Theorem sub_index_key_error (C : Q) (p : string) :
  calculate_sub_index C p = None <->
  ~ In p ["pm10"; "pm2_5"; "so2"; "no2"; "o3"; "co"]%string.
Proof.
  split.
  - intros E I. destruct (calculate_sub_index_total C p I) as [v V]. congruence.
  - intros N. unfold calculate_sub_index.
    rewrite (dict_get_None thresholds p N). reflexivity.
Qed.

Lemma spec_sub_index_500_iff (thresh : list Q) (C : Q) :
  List.length thresh = 6%nat -> increasing thresh -> nth 0 thresh 0 == 0 ->
  0 <= C ->
  (spec_sub_index thresh C == 500 <-> nth 5 thresh 0 < C).
Proof.
  intros Len Inc Z0 C0. unfold spec_sub_index.
  destruct (first_band thresh C) as [i|] eqn:E.
  - pose proof (first_band_low thresh Len Z0 C i C0 E) as Lo.
    apply first_band_some in E. destruct E as (I5 & Hi & _).
    destruct (interpolate_range thresh i C (band_step thresh Len Inc i I5) Lo Hi) as [_ B].
    pose proof (index_high_le i I5) as B250.
    assert (Top : nth (i + 1) thresh 0 <= nth 5 thresh 0).
    { assert (I : i = 4%nat \/ (i + 1 < 5)%nat) by lia.
      destruct I as [-> | I]; [simpl; lra|].
      pose proof (Inc (i + 1)%nat 5%nat ltac:(lia)). lra. }
    split; intros H; exfalso; lra.
  - split; [intros _ | reflexivity].
    apply (first_band_none _ _ E 4%nat). lia.
Qed.

Lemma table_range (p : string) (c : Q) :
  In p (map fst thresholds) -> 0 <= c ->
  (0 <= spec_sub_index (table p) c /\ spec_sub_index (table p) c <= 250) \/
  spec_sub_index (table p) c = 500.
Proof.
  intros I C0. unfold table.
  destruct (dict_get thresholds p) as [thresh|] eqn:E.
  - destruct (table_wf p thresh E) as (Len & Inc & Z0).
    now apply spec_sub_index_range.
  - simpl in I. repeat (destruct I as [<- | I]; [discriminate E|]). destruct I.
Qed.

Lemma table_500_iff (p : string) (c : Q) :
  In p (map fst thresholds) -> 0 <= c ->
  (spec_sub_index (table p) c == 500 <-> nth 5 (table p) 0 < c).
Proof.
  intros I C0. unfold table.
  destruct (dict_get thresholds p) as [thresh|] eqn:E.
  - destruct (table_wf p thresh E) as (Len & Inc & Z0).
    now apply spec_sub_index_500_iff.
  - simpl in I. repeat (destruct I as [<- | I]; [discriminate E|]). destruct I.
Qed.

Lemma table_le_500 (p : string) (c : Q) :
  In p (map fst thresholds) -> 0 <= c ->
  0 <= spec_sub_index (table p) c /\ spec_sub_index (table p) c <= 500.
Proof.
  intros I C0. destruct (table_range p c I C0) as [[A B] | ->]; split; lra.
Qed.

(** For non-negative readings the overall index lies in [0, 250] or is 500:
    no reading can produce an index strictly between 250 and 500. *)
Theorem overall_index_range (pm10 pm2_5 so2 no2 o3 co : Q) :
  0 <= pm10 -> 0 <= pm2_5 -> 0 <= so2 -> 0 <= no2 -> 0 <= o3 -> 0 <= co ->
  exists (ispu : Q) (sub_indices : list Q) (dominant : string),
    calculate_ispu_manual pm10 pm2_5 so2 no2 o3 co = Some (ispu, sub_indices, dominant) /\
    ((0 <= ispu /\ ispu <= 250) \/ ispu = 500).
Proof.
  intros H1 H2 H3 H4 H5 H6.
  assert (H6k : 0 <= co * 1000) by lra.
  destruct (calculate_ispu_manual_max pm10 pm2_5 so2 no2 o3 co) as (ispu & dom & R & I & _).
  eexists ispu, _, dom. split; [exact R|].
  simpl in I.
  repeat (destruct I as [<- | I]; [apply table_range; [six_keys | assumption]|]).
  destruct I.
Qed.

Lemma overall_index_range_witness :
  exists (ispu : Q) (sub_indices : list Q) (dominant : string),
    calculate_ispu_manual 50 35 20 40 50 4 = Some (ispu, sub_indices, dominant) /\
    ((0 <= ispu /\ ispu <= 250) \/ ispu = 500).
Proof.
  apply (overall_index_range 50 35 20 40 50 4); unfold Qle; simpl; lia.
Defined.

Lemma classify_berbahaya_iff (x : Q) :
  classify_based_on_ispu x = "Berbahaya 🟣"%string <-> 300 < x.
Proof.
  unfold classify_based_on_ispu.
  destruct (Qle_bool x 50) eqn:E1;
    [apply Qle_bool_iff in E1 | apply not_true_iff_false in E1; rewrite Qle_bool_iff in E1];
  (destruct (Qle_bool x 100) eqn:E2;
    [apply Qle_bool_iff in E2 | apply not_true_iff_false in E2; rewrite Qle_bool_iff in E2]);
  (destruct (Qle_bool x 200) eqn:E3;
    [apply Qle_bool_iff in E3 | apply not_true_iff_false in E3; rewrite Qle_bool_iff in E3]);
  (destruct (Qle_bool x 300) eqn:E4;
    [apply Qle_bool_iff in E4 | apply not_true_iff_false in E4; rewrite Qle_bool_iff in E4]);
  split; intros H; try discriminate H; try reflexivity; try lra.
Qed.

(** For non-negative readings the category is Berbahaya exactly when some
    reading is strictly above its top breakpoint (CO above 45 mg/m3), and
    then the overall index is 500. *)
Theorem hazardous_iff_above_top (pm10 pm2_5 so2 no2 o3 co : Q) :
  0 <= pm10 -> 0 <= pm2_5 -> 0 <= so2 -> 0 <= no2 -> 0 <= o3 -> 0 <= co ->
  exists (ispu : Q) (sub_indices : list Q) (dominant : string),
    calculate_ispu_manual pm10 pm2_5 so2 no2 o3 co = Some (ispu, sub_indices, dominant) /\
    let above := 500 < pm10 \/ 350.4 < pm2_5 \/ 1200 < so2 \/ 3000 < no2 \/
                 1000 < o3 \/ 45 < co in
    (classify_based_on_ispu ispu = "Berbahaya 🟣"%string <-> above) /\
    (ispu == 500 <-> above).
Proof.
  intros H1 H2 H3 H4 H5 H6.
  assert (H6k : 0 <= co * 1000) by lra.
  destruct (calculate_ispu_manual_max pm10 pm2_5 so2 no2 o3 co) as (ispu & dom & R & I & U).
  eexists ispu, _, dom. split; [exact R|].
  pose proof (table_500_iff "pm10" pm10 ltac:(six_keys) H1) as T1.
  pose proof (table_500_iff "pm2_5" pm2_5 ltac:(six_keys) H2) as T2.
  pose proof (table_500_iff "so2" so2 ltac:(six_keys) H3) as T3.
  pose proof (table_500_iff "no2" no2 ltac:(six_keys) H4) as T4.
  pose proof (table_500_iff "o3" o3 ltac:(six_keys) H5) as T5.
  pose proof (table_500_iff "co" (co * 1000) ltac:(six_keys) H6k) as T6.
  change (nth 5 (table "pm10") 0) with 500 in T1.
  change (nth 5 (table "pm2_5") 0) with 350.4 in T2.
  change (nth 5 (table "so2") 0) with 1200 in T3.
  change (nth 5 (table "no2") 0) with 3000 in T4.
  change (nth 5 (table "o3") 0) with 1000 in T5.
  change (nth 5 (table "co") 0) with 45000 in T6.
  pose proof (table_le_500 "pm10" pm10 ltac:(six_keys) H1) as B1.
  pose proof (table_le_500 "pm2_5" pm2_5 ltac:(six_keys) H2) as B2.
  pose proof (table_le_500 "so2" so2 ltac:(six_keys) H3) as B3.
  pose proof (table_le_500 "no2" no2 ltac:(six_keys) H4) as B4.
  pose proof (table_le_500 "o3" o3 ltac:(six_keys) H5) as B5.
  pose proof (table_le_500 "co" (co * 1000) ltac:(six_keys) H6k) as B6.
  assert (Range : (0 <= ispu /\ ispu <= 250) \/ ispu == 500).
  { simpl in I.
    repeat (destruct I as [<- | I];
            [ match goal with
              | |- context [spec_sub_index (table ?p) ?c] =>
                  destruct (table_range p c ltac:(six_keys) ltac:(assumption)) as [? | ->];
                  [now left | right; reflexivity]
              end | ]).
    destruct I. }
  assert (Iff : ispu == 500 <->
                (500 < pm10 \/ 350.4 < pm2_5 \/ 1200 < so2 \/ 3000 < no2 \/
                 1000 < o3 \/ 45 < co)).
  { rewrite Forall_forall in U. split.
    - intros E. simpl in I.
      destruct I as [<- | [<- | [<- | [<- | [<- | [<- | []]]]]]].
      + left. now apply T1.
      + right; left. now apply T2.
      + do 2 right; left. now apply T3.
      + do 3 right; left. now apply T4.
      + do 4 right; left. now apply T5.
      + do 5 right. apply T6 in E. lra.
    - assert (Le : ispu <= 500).
      { destruct Range as [[_ ?] | ->]; lra. }
      intros [A | [A | [A | [A | [A | A]]]]].
      + apply T1 in A. pose proof (U (spec_sub_index (table "pm10") pm10) ltac:(simpl; tauto)) as G. lra.
      + apply T2 in A. pose proof (U (spec_sub_index (table "pm2_5") pm2_5) ltac:(simpl; tauto)) as G. lra.
      + apply T3 in A. pose proof (U (spec_sub_index (table "so2") so2) ltac:(simpl; tauto)) as G. lra.
      + apply T4 in A. pose proof (U (spec_sub_index (table "no2") no2) ltac:(simpl; tauto)) as G. lra.
      + apply T5 in A. pose proof (U (spec_sub_index (table "o3") o3) ltac:(simpl; tauto)) as G. lra.
      + assert (A' : 45000 < co * 1000) by lra. apply T6 in A'.
        pose proof (U (spec_sub_index (table "co") (co * 1000)) ltac:(simpl; tauto)) as G. lra. }
  cbv zeta. split; [|exact Iff].
  rewrite classify_berbahaya_iff, <- Iff.
  destruct Range as [[_ ?] | E]; split; intros; lra.
Qed.

Lemma hazardous_iff_above_top_witness :
  exists (ispu : Q) (sub_indices : list Q) (dominant : string),
    calculate_ispu_manual 10 10 10 10 10 46 = Some (ispu, sub_indices, dominant) /\
    let above := 500 < 10 \/ 350.4 < 10 \/ 1200 < 10 \/ 3000 < 10 \/ 1000 < 10 \/ 45 < 46 in
    (classify_based_on_ispu ispu = "Berbahaya 🟣"%string <-> above) /\
    (ispu == 500 <-> above).
Proof.
  apply (hazardous_iff_above_top 10 10 10 10 10 46); unfold Qle; simpl; lia.
Defined.

(** Raising any of the readings, from non-negative values, never lowers the
    overall index. *)
Theorem overall_index_monotone_all (a b c d e f a' b' c' d' e' f' : Q) :
  0 <= a -> 0 <= b -> 0 <= c -> 0 <= d -> 0 <= e -> 0 <= f ->
  a <= a' -> b <= b' -> c <= c' -> d <= d' -> e <= e' -> f <= f' ->
  index_le (calculate_ispu_manual a b c d e f)
           (calculate_ispu_manual a' b' c' d' e' f').
Proof.
  intros A0 B0 C0 D0 E0 F0 LA LB LC LD LE LF.
  assert (F0k : 0 <= f * 1000) by lra.
  assert (LFk : f * 1000 <= f' * 1000) by lra.
  destruct (calculate_ispu_manual_max a b c d e f) as (v1 & dom1 & R1 & I1 & _).
  destruct (calculate_ispu_manual_max a' b' c' d' e' f') as (v2 & dom2 & R2 & _ & U2).
  rewrite R1, R2. do 6 eexists. split; [reflexivity|]. split; [reflexivity|].
  rewrite Forall_forall in U2. simpl in I1.
  repeat (destruct I1 as [<- | I1];
          [ match goal with
            | |- spec_sub_index (table ?p) ?x <= _ =>
                match goal with
                | H : x <= ?y |- _ =>
                    apply Qle_trans with (spec_sub_index (table p) y);
                    [ apply table_mono; [six_keys | assumption | assumption]
                    | apply U2; simpl; tauto ]
                end
            end | ]).
  destruct I1.
Qed.

Lemma overall_index_monotone_all_witness :
  index_le (calculate_ispu_manual 50 35 20 40 50 4)
           (calculate_ispu_manual 60 35 20 400 50 4).
Proof.
  apply (overall_index_monotone_all 50 35 20 40 50 4 60 35 20 400 50 4);
    unfold Qle; simpl; lia.
Defined.

(** * Further properties of the validation and of the page *)

Lemma lower_keys_of_lower_items (inputs : dict Q) (acc : dict Q) :
  fold_left (fun d kv => dict_set d (lower (fst kv)) (snd kv)) inputs acc =
  fold_left (fun d kv => dict_set d (fst kv) (snd kv)) (map lower_item inputs) acc.
Proof.
  revert acc. induction inputs as [|kv rest IH]; intros acc; simpl; [reflexivity|].
  apply IH.
Qed.

(** Validation looks at the keys only through their lower-case form: two maps
    that agree once their keys are lower-cased get the same messages. *)
Theorem validate_inputs_ignores_case (inputs inputs' : dict Q) :
  map (fun kv => (lower (fst kv), snd kv)) inputs =
  map (fun kv => (lower (fst kv), snd kv)) inputs' ->
  validate_inputs inputs = validate_inputs inputs'.
Proof.
  intros E.
  assert (L : lower_keys inputs = lower_keys inputs').
  { unfold lower_keys. rewrite !lower_keys_of_lower_items.
    unfold lower_item. now rewrite E. }
  rewrite !validate_inputs_messages, L. reflexivity.
Qed.

Lemma validate_inputs_ignores_case_witness :
  validate_inputs [("PM10", -1); ("Co", 150)]%string =
  validate_inputs [("pm10", -1); ("CO", 150)]%string.
Proof.
  apply (validate_inputs_ignores_case
           [("PM10", -1); ("Co", 150)]%string [("pm10", -1); ("CO", 150)]%string).
  reflexivity.
Defined.

Lemma co_reading_missing (inputs : dict Q) :
  distinct_keys inputs ->
  (forall k v, In (k, v) inputs -> lower k <> "co"%string) ->
  co_reading inputs = 0.
Proof.
  intros N Missing. unfold co_reading. rewrite lower_keys_distinct by assumption.
  rewrite dict_get_None; [reflexivity|].
  intros I. apply in_map_iff in I. destruct I as ([k v] & E & I).
  apply in_map_iff in I. destruct I as ([k0 v0] & [= <- <-] & I).
  simpl in E. now apply (Missing k0 v0).
Qed.

(** A map without a CO key is checked against the range [0, 10000] only: the
    missing reading counts as 0 and never produces the CO message. *)
Theorem validate_inputs_without_co (inputs : dict Q) :
  distinct_keys inputs ->
  (forall k v, In (k, v) inputs -> lower k <> "co"%string) ->
  (validate_inputs inputs = [] <->
   forall k v, In (k, v) inputs -> 0 <= v /\ v <= 10000) /\
  List.length (validate_inputs inputs) =
  List.length (filter (fun kv => out_of_range (snd kv)) inputs).
Proof.
  intros N Missing.
  pose proof (co_reading_missing inputs N Missing) as C0.
  split.
  - rewrite (validate_inputs_nil inputs N), C0. split; [tauto|].
    intros H. split; [exact H | unfold Qle; simpl; lia].
  - rewrite (validate_inputs_length inputs N), C0.
    change (Qlt_bool 100 0) with false. cbv iota. apply Nat.add_0_r.
Qed.

Lemma validate_inputs_without_co_witness :
  (validate_inputs [("pm10", 20000); ("so2", 500)]%string = [] <->
   forall k v, In (k, v) [("pm10", 20000); ("so2", 500)]%string -> 0 <= v /\ v <= 10000) /\
  List.length (validate_inputs [("pm10", 20000); ("so2", 500)]%string) =
  List.length (filter (fun kv => out_of_range (snd kv)) [("pm10", 20000); ("so2", 500)]%string).
Proof.
  apply (validate_inputs_without_co [("pm10", 20000); ("so2", 500)]%string).
  - unfold distinct_keys. vm_compute.
    repeat (constructor;
            [ simpl; intros H; repeat (destruct H as [H | H]; [discriminate H|]); exact H | ]).
    constructor.
  - simpl. intros k v [[= <- <-] | [[= <- <-] | []]]; discriminate.
Defined.

Lemma range_message_negative (name : string) (value : Q) :
  value < 0 -> range_message (name, value) = [(upper name ++ " tidak boleh negatif")%string].
Proof.
  intros H. unfold range_message, check_range.
  now rewrite (proj2 (Qlt_bool_iff value 0) H).
Qed.

Lemma range_message_too_high (name : string) (value : Q) :
  10000 < value ->
  range_message (name, value) = [(upper name ++ " terlalu tinggi (maksimal 10000)")%string].
Proof.
  intros H. unfold range_message, check_range.
  rewrite (proj2 (Qlt_bool_false value 0)) by lra.
  now rewrite (proj2 (Qlt_bool_iff 10000 value) H).
Qed.

(** Every reading outside the range is named in a message: the upper-cased
    key followed by the reason, for a negative reading and for a reading above
    10000. *)
Theorem validate_inputs_names_field (inputs : dict Q) (k : string) (v : Q) :
  distinct_keys inputs ->
  In (k, v) inputs ->
  (v < 0 ->
   In (upper (lower k) ++ " tidak boleh negatif")%string (validate_inputs inputs)) /\
  (10000 < v ->
   In (upper (lower k) ++ " terlalu tinggi (maksimal 10000)")%string (validate_inputs inputs)).
Proof.
  intros N I.
  assert (M : forall msg, In msg (range_message (lower k, v)) ->
                          In msg (validate_inputs inputs)).
  { intros msg Hm. rewrite validate_inputs_messages, lower_keys_distinct by assumption.
    apply in_or_app. left. apply in_flat_map.
    exists (lower k, v). split; [|exact Hm].
    apply (in_map lower_item inputs (k, v) I). }
  split; intros H; apply M.
  - rewrite range_message_negative by assumption. now left.
  - rewrite range_message_too_high by assumption. now left.
Qed.

Lemma validate_inputs_names_field_witness :
  (-3 < 0 ->
   In (upper (lower "so2") ++ " tidak boleh negatif")%string
      (validate_inputs (page_inputs 1 2 (-3) 4 5 6 7 8))) /\
  (10000 < -3 ->
   In (upper (lower "so2") ++ " terlalu tinggi (maksimal 10000)")%string
      (validate_inputs (page_inputs 1 2 (-3) 4 5 6 7 8))).
Proof.
  apply (validate_inputs_names_field (page_inputs 1 2 (-3) 4 5 6 7 8) "so2" (-3)).
  - unfold distinct_keys. vm_compute.
    repeat (constructor;
            [ simpl; intros H; repeat (destruct H as [H | H]; [discriminate H|]); exact H | ]).
    constructor.
  - simpl. tauto.
Defined.

(** The readings that pass the validation of the page. *)
Lemma page_valid_iff (pm10 pm2_5 so2 no no2 o3 co nh3 : Q) :
  validate_inputs (page_inputs pm10 pm2_5 so2 no no2 o3 co nh3) = [] <->
  Forall (fun v => 0 <= v /\ v <= 10000) [pm10; pm2_5; so2; no; no2; o3; co; nh3] /\
  co <= 100.
Proof.
  rewrite (validate_inputs_nil _ (page_inputs_distinct pm10 pm2_5 so2 no no2 o3 co nh3)).
  rewrite page_co_reading. split.
  - intros [R C]. split; [|exact C].
    unfold page_inputs in R.
    repeat (apply Forall_cons; [eapply R; simpl; tauto|]). apply Forall_nil.
  - intros [R C]. split; [|exact C].
    rewrite Forall_forall in R. intros k v I. apply R.
    unfold page_inputs in I. simpl in I.
    repeat (destruct I as [[= <- <-] | I]; [simpl; tauto|]). destruct I.
Qed.


(** The advisory readings NO and NH3 are validated but not used: as long as
    they are in [0, 10000], changing them changes neither the engine call nor
    the displayed result. *)
Theorem run_prediction_ignores_advisory
        (pm10 pm2_5 so2 no2 o3 co no nh3 no' nh3' : Q) :
  0 <= no -> no <= 10000 -> 0 <= nh3 -> nh3 <= 10000 ->
  0 <= no' -> no' <= 10000 -> 0 <= nh3' -> nh3' <= 10000 ->
  run_prediction pm10 pm2_5 so2 no no2 o3 co nh3 =
  run_prediction pm10 pm2_5 so2 no' no2 o3 co nh3'.
Proof.
  intros A1 A2 B1 B2 A1' A2' B1' B2'.
  pose proof (page_valid_iff pm10 pm2_5 so2 no no2 o3 co nh3) as V.
  pose proof (page_valid_iff pm10 pm2_5 so2 no' no2 o3 co nh3') as V'.
  unfold run_prediction.
  destruct (validate_inputs (page_inputs pm10 pm2_5 so2 no no2 o3 co nh3)) as [|e rest] eqn:E.
  - destruct (proj1 V eq_refl) as [R C].
    rewrite (proj2 V'); [reflexivity|].
    split; [|exact C].
    inversion R as [|? ? P1 R1]; subst. inversion R1 as [|? ? P2 R2]; subst.
    inversion R2 as [|? ? P3 R3]; subst. inversion R3 as [|? ? P4 R4]; subst.
    inversion R4 as [|? ? P5 R5]; subst. inversion R5 as [|? ? P6 R6]; subst.
    inversion R6 as [|? ? P7 R7]; subst.
    repeat (apply Forall_cons; [first [assumption | split; assumption]|]).
    apply Forall_nil.
  - (* some message: one of the six readings is out of range, or CO is above
       100, and the same messages are produced for the other advisory values *)
    assert (S : validate_inputs (page_inputs pm10 pm2_5 so2 no' no2 o3 co nh3') = e :: rest).
    { rewrite <- E. rewrite !validate_inputs_messages.
      fold (co_reading (page_inputs pm10 pm2_5 so2 no' no2 o3 co nh3')).
      fold (co_reading (page_inputs pm10 pm2_5 so2 no no2 o3 co nh3)).
      rewrite !page_co_reading.
      rewrite !lower_keys_distinct by apply page_inputs_distinct.
      unfold page_inputs. cbn [map flat_map].
      assert (Rno : forall x, 0 <= x -> x <= 10000 ->
                              range_message (lower_item ("no"%string, x)) = []).
      { intros x X0 X1. apply length_zero_iff_nil. rewrite range_message_length.
        unfold lower_item. cbn [snd].
        now rewrite (proj2 (out_of_range_false x)). }
      assert (Rnh : forall x, 0 <= x -> x <= 10000 ->
                              range_message (lower_item ("nh3"%string, x)) = []).
      { intros x X0 X1. apply length_zero_iff_nil. rewrite range_message_length.
        unfold lower_item. cbn [snd].
        now rewrite (proj2 (out_of_range_false x)). }
      rewrite (Rno no), (Rno no'), (Rnh nh3), (Rnh nh3') by assumption.
      reflexivity. }
    rewrite S. reflexivity.
Qed.

Lemma run_prediction_ignores_advisory_witness :
  run_prediction 50 35 20 0 40 50 4 0 = run_prediction 50 35 20 10 40 50 4 9000.
Proof.
  apply (run_prediction_ignores_advisory 50 35 20 40 50 4 0 0 10 9000);
    unfold Qle; simpl; lia.
Defined.

(** * Properties of the result display *)

Ltac split_le H x c :=
  destruct (Qle_bool x c) eqn:H;
  [ apply Qle_bool_iff in H
  | apply not_true_iff_false in H; rewrite Qle_bool_iff in H; apply Qnot_le_lt in H ].

(** The colour bands of the gauge are those of [classify_air_quality]: the
    five steps tile (0, 500], and a value inside a step has the colour of its
    category.  The threshold marker sits at the displayed value. *)
Theorem gauge_steps_match_classifier (value : Q) (title : string) (x : Q) :
  0 < x -> x <= 500 ->
  let chart := create_gauge_chart value title in
  gauge_threshold_value chart = gauge_value chart /\
  (exists step, In step (gauge_steps chart) /\
                fst (step_range step) < x /\ x <= snd (step_range step)) /\
  (forall step, In step (gauge_steps chart) ->
                fst (step_range step) < x -> x <= snd (step_range step) ->
                step_color step = snd (fst (classify_air_quality x))).
Proof.
  intros X0 X500 chart. split; [reflexivity|].
  unfold chart, create_gauge_chart, classify_air_quality.
  cbn [gauge_steps].
  split_le E1 x 50; [|split_le E2 x 100; [|split_le E3 x 200; [|split_le E4 x 300]]].
  all: split;
    [ first
        [ eexists; split; [left; reflexivity | cbn [step_range fst snd]; split; lra]
        | eexists; split; [right; left; reflexivity | cbn [step_range fst snd]; split; lra]
        | eexists; split; [do 2 right; left; reflexivity | cbn [step_range fst snd]; split; lra]
        | eexists; split; [do 3 right; left; reflexivity | cbn [step_range fst snd]; split; lra]
        | eexists; split; [do 4 right; left; reflexivity | cbn [step_range fst snd]; split; lra] ]
    | intros step I Lo Hi; cbn [In] in I;
      repeat (destruct I as [<- | I];
              [ cbn [step_range step_color fst snd] in *;
                first [ reflexivity | exfalso; lra ] | ]);
      destruct I ].
Qed.

Lemma gauge_steps_match_classifier_witness :
  let chart := create_gauge_chart 74.44 "Nilai ISPU" in
  gauge_threshold_value chart = gauge_value chart /\
  (exists step, In step (gauge_steps chart) /\
                fst (step_range step) < 74.44 /\ 74.44 <= snd (step_range step)) /\
  (forall step, In step (gauge_steps chart) ->
                fst (step_range step) < 74.44 -> 74.44 <= snd (step_range step) ->
                step_color step = snd (fst (classify_air_quality 74.44))).
Proof.
  apply (gauge_steps_match_classifier 74.44 "Nilai ISPU" 74.44).
  - reflexivity.
  - unfold Qle; simpl; lia.
Defined.

Ltac unfold_texts H :=
  unfold health_recommendation, classify_based_on_ispu,
    recommendation_baik, recommendation_sedang, recommendation_tidak_sehat,
    recommendation_sangat_tidak_sehat, recommendation_berbahaya in H.

(** The health recommendation follows the category: two index values get the
    same recommendation exactly when [classify_based_on_ispu] gives them the
    same category, and the green [st.success] box is used for Baik only. *)
Theorem recommendation_follows_category (x y : Q) :
  (health_recommendation x = health_recommendation y <->
   classify_based_on_ispu x = classify_based_on_ispu y) /\
  (fst (health_recommendation x) = st_success <->
   classify_based_on_ispu x = "Baik 🟢"%string).
Proof.
  unfold health_recommendation, classify_based_on_ispu.
  destruct (Qle_bool x 50); [|destruct (Qle_bool x 100);
    [|destruct (Qle_bool x 200); [|destruct (Qle_bool x 300)]]];
  (split;
   [ destruct (Qle_bool y 50); [|destruct (Qle_bool y 100);
       [|destruct (Qle_bool y 200); [|destruct (Qle_bool y 300)]]];
     (split; intros H; first [ reflexivity | exfalso; unfold_texts H; discriminate H ])
   | split; intros H; first [ reflexivity | exfalso; cbn [fst] in H; discriminate H ] ]).
Qed.

Lemma py_div_none (x y : Q) : py_div x y = None <-> y == 0.
Proof.
  unfold py_div. destruct (Qeq_bool y 0) eqn:E.
  - apply Qeq_bool_iff in E. tauto.
  - apply Qeq_bool_neq in E. split; [discriminate | tauto].
Qed.

Lemma contribution_column_some (l : list Q) (x : Q) :
  ~ x == 0 ->
  contribution_column l x =
  Some (map (fun idx => (format_1f (idx / x * 100) ++ "%")%string) l).
Proof.
  intros N. induction l as [|idx rest IH]; simpl; [reflexivity|].
  unfold py_div. destruct (Qeq_bool x 0) eqn:E.
  - apply Qeq_bool_iff in E. tauto.
  - cbn [bind]. rewrite IH. reflexivity.
Qed.

Lemma contribution_column_none (l : list Q) (x : Q) :
  contribution_column l x = None <-> l <> [] /\ x == 0.
Proof.
  split.
  - intros H. destruct (Qeq_dec x 0) as [Z | N].
    + split; [|exact Z]. intros ->. discriminate H.
    + rewrite contribution_column_some in H by assumption. discriminate H.
  - intros [NE Z]. destruct l as [|idx rest]; [congruence|].
    simpl. now rewrite (proj2 (py_div_none idx x) Z).
Qed.

Lemma format_1f_compat (x y : Q) : x == y -> format_1f x = format_1f y.
Proof.
  intros E. unfold format_1f.
  assert (A : Qabs x * 10 == Qabs y * 10) by now rewrite E.
  rewrite (round_half_even_compat _ _ A).
  assert (S : Qlt_bool x 0 = Qlt_bool y 0).
  { destruct (Qlt_bool y 0) eqn:Y.
    - apply Qlt_bool_iff in Y. apply Qlt_bool_iff. lra.
    - apply Qlt_bool_false in Y. apply Qlt_bool_false. lra. }
  now rewrite S.
Qed.

Lemma contribution_share (s ispu : Q) :
  0 <= s -> s <= ispu -> ~ ispu == 0 ->
  0 <= s / ispu * 100 /\ s / ispu * 100 <= 100 /\
  (s == ispu -> format_1f (s / ispu * 100) = "100.0"%string).
Proof.
  intros S0 Le N.
  assert (P : 0 < ispu) by (destruct (Qlt_le_dec 0 ispu); [assumption | exfalso; apply N; lra]).
  assert (A : 0 <= s / ispu) by (apply Qle_shift_div_l; lra).
  assert (B : s / ispu <= 1) by (apply Qle_shift_div_r; lra).
  split; [lra|]. split; [lra|].
  intros E. rewrite (format_1f_compat _ 100); [reflexivity|].
  rewrite E. field. exact N.
Qed.

(** The contribution column divides by the overall index.  For non-negative
    readings the detail table cannot be built ([ZeroDivisionError]) exactly
    when the overall index is 0, which is when all six sub-indices are 0. *)
Theorem detail_table_division_by_zero (pm10 pm2_5 so2 no2 o3 co : Q) :
  0 <= pm10 -> 0 <= pm2_5 -> 0 <= so2 -> 0 <= no2 -> 0 <= o3 -> 0 <= co ->
  exists (ispu : Q) (sub_indices : list Q) (dominant : string),
    calculate_ispu_manual pm10 pm2_5 so2 no2 o3 co = Some (ispu, sub_indices, dominant) /\
    (detail_table sub_indices ispu = None <-> ispu == 0) /\
    (ispu == 0 <-> Forall (fun s => s == 0) sub_indices).
Proof.
  intros H1 H2 H3 H4 H5 H6.
  assert (H6k : 0 <= co * 1000) by lra.
  destruct (calculate_ispu_manual_max pm10 pm2_5 so2 no2 o3 co) as (ispu & dom & R & I & U).
  eexists ispu, _, dom. split; [exact R|].
  pose proof (table_le_500 "pm10" pm10 ltac:(six_keys) H1) as [B1 _].
  pose proof (table_le_500 "pm2_5" pm2_5 ltac:(six_keys) H2) as [B2 _].
  pose proof (table_le_500 "so2" so2 ltac:(six_keys) H3) as [B3 _].
  pose proof (table_le_500 "no2" no2 ltac:(six_keys) H4) as [B4 _].
  pose proof (table_le_500 "o3" o3 ltac:(six_keys) H5) as [B5 _].
  pose proof (table_le_500 "co" (co * 1000) ltac:(six_keys) H6k) as [B6 _].
  revert I U B1 B2 B3 B4 B5 B6.
  generalize (spec_sub_index (table "pm10") pm10) (spec_sub_index (table "pm2_5") pm2_5)
             (spec_sub_index (table "so2") so2) (spec_sub_index (table "no2") no2)
             (spec_sub_index (table "o3") o3) (spec_sub_index (table "co") (co * 1000)).
  intros s1 s2 s3 s4 s5 s6 I U B1 B2 B3 B4 B5 B6.
  split.
  - unfold detail_table.
    destruct (contribution_column [s1; s2; s3; s4; s5; s6] ispu) as [cells|] eqn:E.
    + cbn [bind]. change (List.length [s1; s2; s3; s4; s5; s6] =? _)%nat with true.
      cbv iota. split; [discriminate|]. intros Z.
      assert (N : contribution_column [s1; s2; s3; s4; s5; s6] ispu = None)
        by (apply contribution_column_none; split; [discriminate | exact Z]).
      congruence.
    + cbn [bind]. apply contribution_column_none in E. tauto.
  - inversion U as [|? ? U1 V1]; subst. inversion V1 as [|? ? U2 V2]; subst.
    inversion V2 as [|? ? U3 V3]; subst. inversion V3 as [|? ? U4 V4]; subst.
    inversion V4 as [|? ? U5 V5]; subst. inversion V5 as [|? ? U6 V6]; subst.
    split.
    + intros Z. repeat (apply Forall_cons; [lra|]). apply Forall_nil.
    + intros F. rewrite Forall_forall in F.
      pose proof (F ispu I) as Z. exact Z.
Qed.

Lemma detail_table_division_by_zero_witness :
  exists (ispu : Q) (sub_indices : list Q) (dominant : string),
    calculate_ispu_manual 0 0 0 0 0 0 = Some (ispu, sub_indices, dominant) /\
    (detail_table sub_indices ispu = None <-> ispu == 0) /\
    (ispu == 0 <-> Forall (fun s => s == 0) sub_indices).
Proof.
  apply (detail_table_division_by_zero 0 0 0 0 0 0); unfold Qle; simpl; lia.
Defined.

(** When the overall index of non-negative readings is not 0, the detail table
    has one row per pollutant in the order of the sub-indices; each share is
    between 0 and 100 percent and a pollutant whose sub-index equals the
    overall index is shown with 100.0%. *)
Theorem detail_table_rows (pm10 pm2_5 so2 no2 o3 co : Q)
        (ispu : Q) (sub_indices : list Q) (dominant : string) :
  0 <= pm10 -> 0 <= pm2_5 -> 0 <= so2 -> 0 <= no2 -> 0 <= o3 -> 0 <= co ->
  calculate_ispu_manual pm10 pm2_5 so2 no2 o3 co = Some (ispu, sub_indices, dominant) ->
  ~ ispu == 0 ->
  exists rows,
    detail_table sub_indices ispu = Some rows /\
    map (fun r => fst (fst r)) rows = [ "PM10"; "PM2.5"; "SO₂"; "NO₂"; "O₃"; "CO" ]%string /\
    map (fun r => snd (fst r)) rows = sub_indices /\
    forall name s cell, In (name, s, cell) rows ->
      cell = (format_1f (s / ispu * 100) ++ "%")%string /\
      0 <= s / ispu * 100 /\ s / ispu * 100 <= 100 /\
      (s == ispu -> cell = "100.0%"%string).
Proof.
  intros H1 H2 H3 H4 H5 H6 R N.
  assert (H6k : 0 <= co * 1000) by lra.
  destruct (calculate_ispu_manual_max pm10 pm2_5 so2 no2 o3 co) as (ispu' & dom' & R' & _ & U).
  rewrite R in R'. injection R' as <- E <-.
  pose proof (table_le_500 "pm10" pm10 ltac:(six_keys) H1) as [B1 _].
  pose proof (table_le_500 "pm2_5" pm2_5 ltac:(six_keys) H2) as [B2 _].
  pose proof (table_le_500 "so2" so2 ltac:(six_keys) H3) as [B3 _].
  pose proof (table_le_500 "no2" no2 ltac:(six_keys) H4) as [B4 _].
  pose proof (table_le_500 "o3" o3 ltac:(six_keys) H5) as [B5 _].
  pose proof (table_le_500 "co" (co * 1000) ltac:(six_keys) H6k) as [B6 _].
  revert E U B1 B2 B3 B4 B5 B6.
  generalize (spec_sub_index (table "pm10") pm10) (spec_sub_index (table "pm2_5") pm2_5)
             (spec_sub_index (table "so2") so2) (spec_sub_index (table "no2") no2)
             (spec_sub_index (table "o3") o3) (spec_sub_index (table "co") (co * 1000)).
  intros s1 s2 s3 s4 s5 s6 E U B1 B2 B3 B4 B5 B6. subst sub_indices.
  inversion U as [|? ? U1 V1]; subst. inversion V1 as [|? ? U2 V2]; subst.
  inversion V2 as [|? ? U3 V3]; subst. inversion V3 as [|? ? U4 V4]; subst.
  inversion V4 as [|? ? U5 V5]; subst. inversion V5 as [|? ? U6 V6]; subst.
  unfold detail_table. rewrite (contribution_column_some _ ispu N).
  cbn [bind map List.length Nat.eqb combine].
  eexists. split; [reflexivity|]. split; [reflexivity|]. split; [reflexivity|].
  intros name s cell I. cbn [In] in I.
  repeat (destruct I as [[= <- <- <-] | I];
          [ split; [reflexivity|];
            match goal with
            | |- 0 <= ?s / _ * 100 /\ _ =>
                destruct (contribution_share s ispu ltac:(assumption) ltac:(assumption) N)
                  as (A & B & C);
                split; [exact A|]; split; [exact B|];
                intros Q; rewrite (C Q); reflexivity
            end | ]).
  destruct I.
Qed.

Lemma detail_table_rows_witness :
  exists rows,
    detail_table [50.00; 74.44; 19.23; 25.00; 20.83; 50.00] 74.44 = Some rows /\
    map (fun r => fst (fst r)) rows = [ "PM10"; "PM2.5"; "SO₂"; "NO₂"; "O₃"; "CO" ]%string /\
    map (fun r => snd (fst r)) rows = [50.00; 74.44; 19.23; 25.00; 20.83; 50.00] /\
    forall name s cell, In (name, s, cell) rows ->
      cell = (format_1f (s / 74.44 * 100) ++ "%")%string /\
      0 <= s / 74.44 * 100 /\ s / 74.44 * 100 <= 100 /\
      (s == 74.44 -> cell = "100.0%"%string).
Proof.
  apply (detail_table_rows 50 35 20 40 50 4 74.44
           [50.00; 74.44; 19.23; 25.00; 20.83; 50.00] "PM2.5");
    try (unfold Qle; simpl; lia).
  - reflexivity.
  - discriminate.
Defined.

(** * The bands seen from the concentration *)

(** The breakpoints cut the index scale as they cut the concentrations: for a
    non-negative concentration, being at or below the [k]-th breakpoint gives
    a sub-index of at most [50 * k], and being at or above it gives a
    sub-index of at least [50 * k]. *)
Theorem sub_index_band_bounds (p : string) (thresh : list Q) (k : nat) (C : Q) :
  dict_get thresholds p = Some thresh ->
  (k <= 5)%nat ->
  0 <= C ->
  exists v, calculate_sub_index C p = Some v /\
            (C <= nth k thresh 0 -> v <= inject_Z (50 * Z.of_nat k)) /\
            (nth k thresh 0 <= C -> inject_Z (50 * Z.of_nat k) <= v).
Proof.
  intros T K C0. rewrite (calculate_sub_index_spec p thresh C T).
  destruct (table_wf p thresh T) as (Len & Inc & Z0).
  pose proof (spec_sub_index_at_breakpoint p thresh k T K) as B.
  assert (K0 : 0 <= nth k thresh 0).
  { destruct k as [|k]; [lra|].
    pose proof (Inc 0%nat (S k) ltac:(lia)). lra. }
  eexists. split; [reflexivity|]. split; intros H.
  - rewrite <- B. now apply spec_sub_index_mono.
  - rewrite <- B. now apply spec_sub_index_mono.
Qed.

Lemma sub_index_band_bounds_witness :
  exists v, calculate_sub_index 15.5 "pm2_5" = Some v /\
            (15.5 <= nth 1 [0; 15.5; 55.4; 150.4; 250.4; 350.4] 0 ->
             v <= inject_Z (50 * Z.of_nat 1)) /\
            (nth 1 [0; 15.5; 55.4; 150.4; 250.4; 350.4] 0 <= 15.5 ->
             inject_Z (50 * Z.of_nat 1) <= v).
Proof.
  apply (sub_index_band_bounds "pm2_5" [0; 15.5; 55.4; 150.4; 250.4; 350.4] 1 15.5).
  - reflexivity.
  - lia.
  - unfold Qle; simpl; lia.
Defined.
